(** * DingusPPC: floating-point opcodes, MacIO interrupt registers, SCSI disk

    A shallow embedding of [cpu/ppc/ppcfpopcodes.cpp], of the interrupt
    register offsets of [devices/ioctrl/macio.h] and of the positioning
    methods of the generic SCSI hard disk, together with the properties
    the design document states about them.

    Conventions.  A [uint32_t] or [uint64_t] is a [Z] in its range;
    arithmetic that can leave the range and narrowing conversions are
    wrapped with [u32] or [u64] where the source has them.  A
    [double] is the 64-bit pattern of the register ([int64_r] and
    [dbl64_r] alias the same storage); its IEEE-754 reading is obtained
    with [dbl].  The arithmetic of the host FPU ([+], [*], [std::fma],
    the conversions to and from [float]) depends on the dynamic
    rounding mode and is an interface, [HostFPU]. *)

From Stdlib Require Import ZArith List Bool Lia.
From Stdlib Require Import Floats.SpecFloat.
Import ListNotations.

Local Open Scope Z_scope.

(** ** Machine words *)

Module Word.

(** Conversion to [uint32_t] and to [uint64_t]. *)
Definition u32 (x : Z) : Z := Z.land x (Z.ones 32).
Definition u64 (x : Z) : Z := Z.land x (Z.ones 64).

(** [int32_t(int16_t(x))], stored into a [uint32_t]. *)
Definition sext16 (x : Z) : Z :=
  let lo := Z.land x 0xFFFF in
  if Z.testbit lo 15 then u32 (lo - 0x10000) else lo.

(** [static_cast<uint32_t>] of a mathematical integer that fits an
    [int32_t]. *)
Definition of_int32 (x : Z) : Z := u32 x.

(** [!!x] *)
Definition nonzero (x : Z) : Z := if x =? 0 then 0 else 1.

(** [x & m] seen as a condition. *)
Definition tst (x m : Z) : bool := negb (Z.land x m =? 0).

End Word.
Import Word.

(** ** FPSCR, CR and exception constants

    These come from [ppcemu.h]. *)

Module FPSCR.

(** Modelled from the spec: the header that declares [enum FPSCR] is
    not among the sources.  The names are those of the data model
    (status bits FX FEX VX OX UX ZX XX, the cause bits, FPCC and RN);
    the values are the bit positions of the PowerPC architecture, and
    the literal masks of [ppcfpopcodes.cpp] agree with them:
    [update_fex] writes FEX at [1 << 30] and pairs the enables
    [<< 22] with [0x3E000000]; [ppc_update_cr1] takes
    FX, FEX, VX, OX from the top nibble; [ppc_mtfsb0] names the bits
    [0x80000000 >> 1] and [0x80000000 >> 2] FEX and VX;
    [ppc_fcmpo] places the FPCC at [CR field >> 16]. *)
Definition RN_MASK : Z := 0x3.
Definition NI      : Z := 0x4.
Definition XE      : Z := 0x8.
Definition ZE      : Z := 0x10.
Definition UE      : Z := 0x20.
Definition OE      : Z := 0x40.
Definition VE      : Z := 0x80.
Definition VXCVI   : Z := 0x100.
Definition VXSQRT  : Z := 0x200.
Definition VXSOFT  : Z := 0x400.
Definition FPCC_FUNAN : Z := 0x1000.
Definition FPCC_ZERO  : Z := 0x2000.
Definition FPCC_POS   : Z := 0x4000.
Definition FPCC_NEG   : Z := 0x8000.
Definition FPCC_MASK  : Z := 0xF000.
Definition FPRCD   : Z := 0x10000.
Definition FI      : Z := 0x20000.
Definition FR      : Z := 0x40000.
Definition VXVC    : Z := 0x80000.
Definition VXIMZ   : Z := 0x100000.
Definition VXZDZ   : Z := 0x200000.
Definition VXIDI   : Z := 0x400000.
Definition VXISI   : Z := 0x800000.
Definition VXSNAN  : Z := 0x1000000.
Definition XX      : Z := 0x2000000.
Definition ZX      : Z := 0x4000000.
Definition UX      : Z := 0x8000000.
Definition OX      : Z := 0x10000000.
Definition VX      : Z := 0x20000000.
Definition FEX     : Z := 0x40000000.
Definition FX      : Z := 0x80000000.

End FPSCR.

Module CR.

(** Modelled from the spec: [CR_select] and [CRx_bit] of the missing
    header.  The condition register is eight 4-bit fields; CR1 is the
    second one, and a compare result sits in the top nibble before it
    is shifted to its field. *)
Definition CR1_field : Z := 0x0F000000.
Definition CR_SO : Z := 0x10000000.
Definition CR_EQ : Z := 0x20000000.
Definition CR_GT : Z := 0x40000000.
Definition CR_LT : Z := 0x80000000.

End CR.

(** Modelled from the spec: the exception taxonomy of the error
    handling design; the enumerations themselves are declared in the
    missing header.  [EXC_PROGRAM] and [ILLEGAL_OP] are the two names
    the floating-point handlers use. *)
Inductive Except_Type : Set :=
| EXC_SYSTEM_RESET | EXC_MACHINE_CHECK | EXC_DSI | EXC_ISI | EXC_EXT_INT
| EXC_ALIGNMENT | EXC_PROGRAM | EXC_NO_FPU | EXC_DECR | EXC_SYSCALL
| EXC_TRACE.

Inductive Exc_Cause : Set :=
| FPU_EXCEPTION | ILLEGAL_OP | NOT_ALLOWED | TRAP.

(** [enum FPOP], the template argument of [ppc_confirm_inf_nan]. *)
Inductive FPOP : Set := DIV | SUB | ADD | SQRT | MUL.

(** ** IEEE-754 reading of a 64-bit pattern *)

Module Dbl.

Definition sign_bit : Z := 0x8000000000000000.

(** The value a [double] with bit pattern [b] denotes. *)
Definition dbl (b : Z) : spec_float :=
  let s := Z.testbit b 63 in
  let e := Z.land (Z.shiftr b 52) 0x7FF in
  let f := Z.land b 0xFFFFFFFFFFFFF in
  if e =? 0 then
    match f with
    | Zpos p => S754_finite s p (-1074)
    | _ => S754_zero s
    end
  else if e =? 0x7FF then
    (if f =? 0 then S754_infinity s else S754_nan)
  else
    match f + 0x10000000000000 with
    | Zpos p => S754_finite s p (e - 1075)
    | _ => S754_nan
    end.

(** [std::isnan], [std::isinf]. *)
Definition isnan (b : Z) : bool :=
  match dbl b with S754_nan => true | _ => false end.

Definition isinf (b : Z) : bool :=
  match dbl b with S754_infinity _ => true | _ => false end.

(** The comparison operators of C++ on doubles: false as soon as an
    operand is a NaN. *)
Definition flt (a b : Z) : bool := SFltb (dbl a) (dbl b).
Definition fgt (a b : Z) : bool := SFltb (dbl b) (dbl a).
Definition fge (a b : Z) : bool := SFleb (dbl b) (dbl a).
Definition feq (a b : Z) : bool := SFeqb (dbl a) (dbl b).

(** Literals of the source. *)
Definition zero      : Z := 0x0000000000000000.   (* 0.0, 0.0f *)
Definition neg_zero  : Z := 0x8000000000000000.   (* -0.0 *)
Definition half      : Z := 0x3FE0000000000000.   (* 0.5 *)
Definition one       : Z := 0x3FF0000000000000.   (* 1.0 *)
Definition neg_one   : Z := 0xBFF0000000000000.   (* -1.0 *)
Definition int32_max : Z := 0x41DFFFFFFFC00000.   (* double(0x7fffffff) *)
Definition int32_min : Z := 0xC1E0000000000000.   (* -double(0x80000000) *)

(** Unary minus flips the sign bit. *)
Definition fneg (b : Z) : Z := Z.lxor b sign_bit.

(** Integer part of a finite value, rounded as [std::trunc],
    [std::floor] and [std::ceil] do.  The value of
    [S754_finite s m e] is [(-1)^s * m * 2^e]. *)
Definition floorZ (x : spec_float) : Z :=
  match x with
  | S754_finite s m e =>
      let v := if s then Z.neg m else Z.pos m in
      if 0 <=? e then v * 2 ^ e else v / 2 ^ (- e)
  | _ => 0
  end.

Definition ceilZ (x : spec_float) : Z := - floorZ (SFopp x).

Definition truncZ (x : spec_float) : Z :=
  match x with
  | S754_finite true _ _ => ceilZ x
  | _ => floorZ x
  end.

End Dbl.
Import Dbl.

(** ** The host floating-point unit

    [<cfenv>] rounding directions and the operations whose result
    depends on them.  Doubles are 64-bit patterns, floats 32-bit ones. *)

Inductive fe_round : Set :=
| FE_TONEAREST | FE_TOWARDZERO | FE_UPWARD | FE_DOWNWARD.

Class HostFPU : Type := {
  fp_add  : fe_round -> Z -> Z -> Z;
  fp_sub  : fe_round -> Z -> Z -> Z;
  fp_mul  : fe_round -> Z -> Z -> Z;
  fp_div  : fe_round -> Z -> Z -> Z;
  fp_fma  : fe_round -> Z -> Z -> Z -> Z;     (* std::fma(x, y, z) *)
  fp_sqrt : fe_round -> Z -> Z;
  to_float : fe_round -> Z -> Z;              (* (float)d *)
  of_float : Z -> Z;                          (* (double)f *)
  FP_ZERO : Z                                 (* (double)FP_ZERO of <cmath> *)
}.

(** [(double)(float)d]: a double rounded to single precision. *)
Definition fp_single {H : HostFPU} (rm : fe_round) (d : Z) : Z :=
  of_float (to_float rm d).

(** ** Guest state

    [fpr], [gpr], [fpscr] and [cr] are the members of the global
    [ppc_state] the floating-point handlers touch; register numbers are
    always masked with 31 before use.  [ppc_cur_instruction], [rc_flag]
    and [ppc_effective_address] are the interpreter's globals, and
    [host_round] is the rounding direction [std::fesetround] last
    installed in the host. *)

Record Machine : Type := mkMachine {
  fpr : Z -> Z;
  gpr : Z -> Z;
  fpscr : Z;
  cr : Z;
  ppc_cur_instruction : Z;
  rc_flag : bool;
  ppc_effective_address : Z;
  host_round : fe_round
}.

Definition upd (f : Z -> Z) (r v : Z) : Z -> Z :=
  fun r' => if r' =? r then v else f r'.

Definition set_fpr (r v : Z) (m : Machine) : Machine :=
  mkMachine (upd (fpr m) r v) (gpr m) (fpscr m) (cr m)
            (ppc_cur_instruction m) (rc_flag m) (ppc_effective_address m)
            (host_round m).

Definition set_gpr (r v : Z) (m : Machine) : Machine :=
  mkMachine (fpr m) (upd (gpr m) r v) (fpscr m) (cr m)
            (ppc_cur_instruction m) (rc_flag m) (ppc_effective_address m)
            (host_round m).

Definition set_fpscr (v : Z) (m : Machine) : Machine :=
  mkMachine (fpr m) (gpr m) v (cr m)
            (ppc_cur_instruction m) (rc_flag m) (ppc_effective_address m)
            (host_round m).

Definition set_cr (v : Z) (m : Machine) : Machine :=
  mkMachine (fpr m) (gpr m) (fpscr m) v
            (ppc_cur_instruction m) (rc_flag m) (ppc_effective_address m)
            (host_round m).

Definition set_ea (v : Z) (m : Machine) : Machine :=
  mkMachine (fpr m) (gpr m) (fpscr m) (cr m)
            (ppc_cur_instruction m) (rc_flag m) v
            (host_round m).

Definition fesetround (r : fe_round) (m : Machine) : Machine :=
  mkMachine (fpr m) (gpr m) (fpscr m) (cr m)
            (ppc_cur_instruction m) (rc_flag m) (ppc_effective_address m)
            r.

(** [ppc_state.fpscr |= bits] and [ppc_state.fpscr &= mask]. *)
Definition or_fpscr (bits : Z) (m : Machine) : Machine :=
  set_fpscr (Z.lor (fpscr m) bits) m.

Definition and_fpscr (mask : Z) (m : Machine) : Machine :=
  set_fpscr (Z.land (fpscr m) mask) m.

(** The register fields of the instruction word, as the
    [ppc_grab_regsfp...] macros extract them. *)
Definition reg_d (m : Machine) : Z := Z.land (Z.shiftr (ppc_cur_instruction m) 21) 31.
Definition reg_s (m : Machine) : Z := Z.land (Z.shiftr (ppc_cur_instruction m) 21) 31.
Definition reg_a (m : Machine) : Z := Z.land (Z.shiftr (ppc_cur_instruction m) 16) 31.
Definition reg_b (m : Machine) : Z := Z.land (Z.shiftr (ppc_cur_instruction m) 11) 31.
Definition reg_c (m : Machine) : Z := Z.land (Z.shiftr (ppc_cur_instruction m) 6) 31.
Definition crf_d (m : Machine) : Z := Z.land (Z.shiftr (ppc_cur_instruction m) 21) 0x1C.

(** ** Calls that leave the file

    The MMU ([mmu_read_vmem], [mmu_write_vmem]) and the exception
    delivery ([ppc_exception_handler], [ppc_floating_point_exception])
    are defined elsewhere.  A handler that uses them is a tree of such
    calls: each node is one call and the continuation receives what the
    call returned (the value read; ignored for the [void] ones). *)

Inductive width : Set := W32 | W64.

Inductive call : Type :=
| mmu_read_vmem (w : width) (ea : Z)
| mmu_write_vmem (w : width) (ea v : Z)
| ppc_exception_handler (ty : Except_Type) (cause : Exc_Cause)
| ppc_floating_point_exception.

Inductive prog (A : Type) : Type :=
| Ret (a : A)
| Call (c : call) (k : Z -> prog A).

Arguments Ret {A} a.
Arguments Call {A} c k.

(** Running a tree against an environment that answers every call:
    the calls made, in order, and the final value. *)
Fixpoint run {A : Type} (env : call -> Z) (p : prog A) : list call * A :=
  match p with
  | Ret a => ([], a)
  | Call c k => let '(t, a) := run env (k (env c)) in (c :: t, a)
  end.

(** The final value of a handler that made no call. *)
Definition returned {A : Type} (p : prog A) : option A :=
  match p with
  | Ret a => Some a
  | Call _ _ => None
  end.

Definition is_mmu_access (c : call) : bool :=
  match c with
  | mmu_read_vmem _ _ | mmu_write_vmem _ _ _ => true
  | _ => false
  end.

(** ** The handlers of [ppcfpopcodes.cpp] *)

Section Handlers.

Context {host : HostFPU}.

Import FPSCR.

(** copy FPSCR[FX|FEX|VX|OX] to CR1 *)
Definition ppc_update_cr1 (m : Machine) : Machine :=
  set_cr (Z.lor (Z.land (cr m) (Z.lnot CR.CR1_field))
                (Z.land (Z.shiftr (fpscr m) 4) CR.CR1_field)) m.

(** [if (rc_flag) ppc_update_cr1();], the tail of most handlers. *)
Definition with_rc (m : Machine) : Machine :=
  if rc_flag m then ppc_update_cr1 m else m.

Definition set_host_rounding_mode (mode : Z) (m : Machine) : Machine :=
  match Z.land mode RN_MASK with
  | 0 => fesetround FE_TONEAREST m
  | 1 => fesetround FE_TOWARDZERO m
  | 2 => fesetround FE_UPWARD m
  | 3 => fesetround FE_DOWNWARD m
  | _ => m
  end.

Definition update_fpscr (new_fpscr : Z) (m : Machine) : Machine :=
  let m :=
    if negb (Z.land new_fpscr RN_MASK =? Z.land (fpscr m) RN_MASK)
    then set_host_rounding_mode (Z.land (Z.land new_fpscr RN_MASK) 0xFF) m
    else m in
  set_fpscr new_fpscr m.

Definition update_fex (m : Machine) : Machine :=
  let fex_result :=
    nonzero (Z.land (Z.land (fpscr m) (u32 (Z.shiftl (fpscr m) 22)))
                    0x3E000000) in
  set_fpscr (Z.lor (Z.land (fpscr m) (Z.lnot 0x40000000))
                   (Z.shiftl fex_result 30)) m.

Definition ppc_confirm_inf_nan (fpop : FPOP)
           (chosen_reg_1 chosen_reg_2 : Z) (m : Machine) : Machine :=
  let input_a := fpr m chosen_reg_1 in
  let input_b := fpr m chosen_reg_2 in
  let m := and_fpscr 0x7fbfffff m in
  match fpop with
  | DIV =>
      let m :=
        if isinf input_a && isinf input_b then
          or_fpscr (Z.lor FX VXIDI) m
        else if feq input_a FP_ZERO && feq input_b FP_ZERO then
          or_fpscr (Z.lor FX VXZDZ) m
        else m in
      update_fex m
  | SUB =>
      let m :=
        if isinf input_a && isinf input_b
        then or_fpscr (Z.lor FX VXISI) m else m in
      let m :=
        if isnan input_a && isnan input_b
        then or_fpscr (Z.lor FX VXISI) m else m in
      update_fex m
  | ADD =>
      let m :=
        if isnan input_a && isnan input_b
        then or_fpscr (Z.lor FX VXISI) m else m in
      update_fex m
  | SQRT =>
      let m :=
        if isnan input_b || feq input_b neg_one
        then or_fpscr (Z.lor FX VXSQRT) m else m in
      update_fex m
  | MUL =>
      let m :=
        if isnan input_a && isnan input_b
        then or_fpscr FX m else m in
      update_fex m
  end.

Definition fpresult_update (set_result : Z) (m : Machine) : Machine :=
  if isnan set_result then
    or_fpscr (Z.lor FPCC_FUNAN FPRCD) m
  else
    let m :=
      if fgt set_result zero then or_fpscr FPCC_POS m
      else if flt set_result zero then or_fpscr FPCC_NEG m
      else or_fpscr FPCC_ZERO m in
    if isinf set_result then or_fpscr FPCC_FUNAN m else m.

(** The common tail of the arithmetic handlers: store the result in
    [reg_d], update the FPSCR from it, copy to CR1 when Rc is set. *)
Definition store_and_update (ppc_dblresult64_d : Z) (m : Machine) : Machine :=
  with_rc (fpresult_update ppc_dblresult64_d
                           (set_fpr (reg_d m) ppc_dblresult64_d m)).

(** [if (isnan(x) || isnan(y)) ppc_confirm_inf_nan<fpop>(rx, ry)] *)
Definition confirm_if_nan2 (fpop : FPOP) (rx ry : Z) (m : Machine) : Machine :=
  if isnan (fpr m rx) || isnan (fpr m ry)
  then ppc_confirm_inf_nan fpop rx ry m else m.

(** [if (isnan(val_reg_b)) ppc_confirm_inf_nan<fpop>(reg_a, reg_b)] *)
Definition confirm_if_nan1 (fpop : FPOP) (m : Machine) : Machine :=
  if isnan (fpr m (reg_b m))
  then ppc_confirm_inf_nan fpop (reg_a m) (reg_b m) m else m.

(** *** Floating Point Arithmetic *)

Definition ppc_fadd (m : Machine) : Machine :=
  let val_reg_a := fpr m (reg_a m) in
  let val_reg_b := fpr m (reg_b m) in
  let m :=
    if isnan val_reg_a || isnan val_reg_b
    then ppc_confirm_inf_nan ADD (reg_a m) (reg_b m) (or_fpscr FPCC_FUNAN m)
    else m in
  store_and_update (fp_add (host_round m) val_reg_a val_reg_b) m.

Definition ppc_fsub (m : Machine) : Machine :=
  let val_reg_a := fpr m (reg_a m) in
  let val_reg_b := fpr m (reg_b m) in
  let m :=
    if isnan val_reg_a || isnan val_reg_b
    then ppc_confirm_inf_nan SUB (reg_a m) (reg_b m) (or_fpscr FPCC_FUNAN m)
    else m in
  store_and_update (fp_sub (host_round m) val_reg_a val_reg_b) m.

Definition ppc_fdiv (m : Machine) : Machine :=
  let val_reg_a := fpr m (reg_a m) in
  let val_reg_b := fpr m (reg_b m) in
  let m := confirm_if_nan2 DIV (reg_a m) (reg_b m) m in
  store_and_update (fp_div (host_round m) val_reg_a val_reg_b) m.

Definition ppc_fmul (m : Machine) : Machine :=
  let val_reg_a := fpr m (reg_a m) in
  let val_reg_c := fpr m (reg_c m) in
  let m := confirm_if_nan2 MUL (reg_a m) (reg_c m) m in
  store_and_update (fp_mul (host_round m) val_reg_a val_reg_c) m.

Definition ppc_fmadd (m : Machine) : Machine :=
  let val_reg_a := fpr m (reg_a m) in
  let val_reg_b := fpr m (reg_b m) in
  let val_reg_c := fpr m (reg_c m) in
  let m := confirm_if_nan2 MUL (reg_a m) (reg_c m) m in
  let m := confirm_if_nan1 ADD m in
  store_and_update (fp_fma (host_round m) val_reg_a val_reg_c val_reg_b) m.

Definition ppc_fmsub (m : Machine) : Machine :=
  let val_reg_a := fpr m (reg_a m) in
  let val_reg_b := fpr m (reg_b m) in
  let val_reg_c := fpr m (reg_c m) in
  let m := confirm_if_nan2 MUL (reg_a m) (reg_c m) m in
  let m := confirm_if_nan1 SUB m in
  store_and_update
    (fp_fma (host_round m) val_reg_a val_reg_c (fneg val_reg_b)) m.

Definition ppc_fnmadd (m : Machine) : Machine :=
  let val_reg_a := fpr m (reg_a m) in
  let val_reg_b := fpr m (reg_b m) in
  let val_reg_c := fpr m (reg_c m) in
  let m := confirm_if_nan2 MUL (reg_a m) (reg_c m) m in
  let m := confirm_if_nan1 ADD m in
  store_and_update
    (fneg (fp_fma (host_round m) val_reg_a val_reg_c val_reg_b)) m.

Definition ppc_fnmsub (m : Machine) : Machine :=
  let val_reg_a := fpr m (reg_a m) in
  let val_reg_b := fpr m (reg_b m) in
  let val_reg_c := fpr m (reg_c m) in
  let m := confirm_if_nan2 MUL (reg_a m) (reg_c m) m in
  let m := confirm_if_nan1 SUB m in
  store_and_update
    (fp_fma (host_round m) (fneg val_reg_a) val_reg_c val_reg_b) m.

Definition ppc_fadds (m : Machine) : Machine :=
  let val_reg_a := fpr m (reg_a m) in
  let val_reg_b := fpr m (reg_b m) in
  let m := confirm_if_nan2 ADD (reg_a m) (reg_b m) m in
  let rm := host_round m in
  store_and_update (fp_single rm (fp_add rm val_reg_a val_reg_b)) m.

Definition ppc_fsubs (m : Machine) : Machine :=
  let val_reg_a := fpr m (reg_a m) in
  let val_reg_b := fpr m (reg_b m) in
  let m := confirm_if_nan2 SUB (reg_a m) (reg_b m) m in
  let rm := host_round m in
  store_and_update (fp_single rm (fp_sub rm val_reg_a val_reg_b)) m.

Definition ppc_fdivs (m : Machine) : Machine :=
  let val_reg_a := fpr m (reg_a m) in
  let val_reg_b := fpr m (reg_b m) in
  let m := confirm_if_nan2 DIV (reg_a m) (reg_b m) m in
  let rm := host_round m in
  store_and_update (fp_single rm (fp_div rm val_reg_a val_reg_b)) m.

Definition ppc_fmuls (m : Machine) : Machine :=
  let val_reg_a := fpr m (reg_a m) in
  let val_reg_c := fpr m (reg_c m) in
  let m := confirm_if_nan2 MUL (reg_a m) (reg_c m) m in
  let rm := host_round m in
  store_and_update (fp_single rm (fp_mul rm val_reg_a val_reg_c)) m.

Definition ppc_fmadds (m : Machine) : Machine :=
  let val_reg_a := fpr m (reg_a m) in
  let val_reg_b := fpr m (reg_b m) in
  let val_reg_c := fpr m (reg_c m) in
  let m := confirm_if_nan2 MUL (reg_a m) (reg_c m) m in
  let m := confirm_if_nan1 ADD m in
  let rm := host_round m in
  store_and_update
    (fp_single rm (fp_fma rm val_reg_a val_reg_c val_reg_b)) m.

Definition ppc_fmsubs (m : Machine) : Machine :=
  let val_reg_a := fpr m (reg_a m) in
  let val_reg_b := fpr m (reg_b m) in
  let val_reg_c := fpr m (reg_c m) in
  let m := confirm_if_nan2 MUL (reg_a m) (reg_c m) m in
  let m := confirm_if_nan1 SUB m in
  let rm := host_round m in
  store_and_update
    (fp_single rm (fp_fma rm val_reg_a val_reg_c (fneg val_reg_b))) m.

Definition ppc_fnmadds (m : Machine) : Machine :=
  let val_reg_a := fpr m (reg_a m) in
  let val_reg_b := fpr m (reg_b m) in
  let val_reg_c := fpr m (reg_c m) in
  let m := confirm_if_nan2 MUL (reg_a m) (reg_c m) m in
  let m := confirm_if_nan1 ADD m in
  let rm := host_round m in
  store_and_update
    (fneg (fp_single rm (fp_fma rm val_reg_a val_reg_c val_reg_b))) m.

Definition ppc_fnmsubs (m : Machine) : Machine :=
  let val_reg_a := fpr m (reg_a m) in
  let val_reg_b := fpr m (reg_b m) in
  let val_reg_c := fpr m (reg_c m) in
  let m := confirm_if_nan2 MUL (reg_a m) (reg_c m) m in
  let m := confirm_if_nan1 SUB m in
  let rm := host_round m in
  store_and_update
    (fp_single rm (fp_fma rm (fneg val_reg_a) val_reg_c val_reg_b)) m.

(** The sixteen of them, by name. *)
Definition arithmetic_handlers : list (Machine -> Machine) :=
  [ppc_fadd; ppc_fsub; ppc_fdiv; ppc_fmul;
   ppc_fmadd; ppc_fmsub; ppc_fnmadd; ppc_fnmsub;
   ppc_fadds; ppc_fsubs; ppc_fdivs; ppc_fmuls;
   ppc_fmadds; ppc_fmsubs; ppc_fnmadds; ppc_fnmsubs].

Definition ppc_fsel (m : Machine) : Machine :=
  let val_reg_a := fpr m (reg_a m) in
  let val_reg_b := fpr m (reg_b m) in
  let val_reg_c := fpr m (reg_c m) in
  let ppc_dblresult64_d :=
    if fge val_reg_a neg_zero then val_reg_c else val_reg_b in
  with_rc (set_fpr (reg_d m) ppc_dblresult64_d m).

Definition ppc_fsqrt (m : Machine) : Machine :=
  let testd2 := fpr m (reg_b m) in
  let ppc_dblresult64_d := fp_sqrt (host_round m) testd2 in
  let m := set_fpr (reg_d m) ppc_dblresult64_d m in
  with_rc (ppc_confirm_inf_nan SQRT 0 (reg_b m) m).

Definition ppc_fsqrts (m : Machine) : Machine :=
  let testd2 := fpr m (reg_b m) in
  let rm := host_round m in
  let ppc_dblresult64_d := fp_single rm (fp_sqrt rm testd2) in
  let m := set_fpr (reg_d m) ppc_dblresult64_d m in
  with_rc (ppc_confirm_inf_nan SQRT 0 (reg_b m) m).

Definition ppc_frsqrte (m : Machine) : Machine :=
  let testd2 := fpr m (reg_b m) in
  let rm := host_round m in
  let ppc_dblresult64_d := fp_div rm one (fp_sqrt rm testd2) in
  let m := ppc_confirm_inf_nan SQRT 0 (reg_b m) m in
  with_rc (set_fpr (reg_d m) ppc_dblresult64_d m).

Definition ppc_fres (m : Machine) : Machine :=
  let start_num := fpr m (reg_b m) in
  let rm := host_round m in
  let ppc_dblresult64_d := fp_single rm (fp_div rm one start_num) in
  let m := set_fpr (reg_d m) ppc_dblresult64_d m in
  let m :=
    if feq start_num zero then or_fpscr ZX m
    else if isnan start_num then or_fpscr VXSNAN m
    else if isinf start_num then or_fpscr VXSNAN (and_fpscr 0xFFF9FFFF m)
    else m in
  with_rc m.

(** *** Conversion to integer *)

Definition round_to_nearest (rm : fe_round) (f : Z) : Z :=
  of_int32 (floorZ (dbl (fp_add rm f half))).
Definition round_to_zero (f : Z) : Z := of_int32 (truncZ (dbl f)).
Definition round_to_pos_inf (f : Z) : Z := of_int32 (ceilZ (dbl f)).
Definition round_to_neg_inf (f : Z) : Z := of_int32 (floorZ (dbl f)).

Definition round_to_int (mode : Z) (m : Machine) : prog Machine :=
  let val_reg_b := fpr m (reg_b m) in
  if isnan val_reg_b then
    let m := and_fpscr (Z.lnot (Z.lor FR FI)) m in
    let m := or_fpscr (Z.lor VXCVI VX) m in
    let m :=
      if negb (tst (fpr m (reg_b m)) 0x0008000000000000)   (* issnan *)
      then or_fpscr VXSNAN m else m in
    if tst (fpscr m) VE then
      let m := or_fpscr FEX m in
      Call ppc_floating_point_exception (fun _ => Ret (with_rc m))
    else
      Ret (with_rc (set_fpr (reg_d m) 0xFFF8000080000000 m))
  else if fgt val_reg_b int32_max || flt val_reg_b int32_min then
    let m := and_fpscr (Z.lnot (Z.lor FR FI)) m in
    let m := or_fpscr (Z.lor VXCVI VX) m in
    if tst (fpscr m) VE then
      let m := or_fpscr FEX m in
      Call ppc_floating_point_exception (fun _ => Ret (with_rc m))
    else if fge val_reg_b zero then
      Ret (with_rc (set_fpr (reg_d m) 0xFFF800007FFFFFFF m))
    else
      Ret (with_rc (set_fpr (reg_d m) 0xFFF8000080000000 m))
  else
    let ppc_result64_d :=
      match Z.land mode 0x3 with
      | 0 => round_to_nearest (host_round m) val_reg_b
      | 1 => round_to_zero val_reg_b
      | 2 => round_to_pos_inf val_reg_b
      | _ => round_to_neg_inf val_reg_b
      end in
    let ppc_result64_d := Z.lor ppc_result64_d 0xFFF8000000000000 in
    Ret (with_rc (set_fpr (reg_d m) ppc_result64_d m)).

Definition ppc_fctiw (m : Machine) : prog Machine :=
  round_to_int (Z.land (Z.land (fpscr m) 0x3) 0xFF) m.

Definition ppc_fctiwz (m : Machine) : prog Machine :=
  round_to_int 1 m.

(** *** Floating Point Store and Load, update forms *)

Definition illegal_op (m : Machine) : prog Machine :=
  Call (ppc_exception_handler EXC_PROGRAM ILLEGAL_OP) (fun _ => Ret m).

(** [ppc_effective_address = int32_t(int16_t(ppc_cur_instruction));
     ppc_effective_address += val_reg_a;] *)
Definition ea_d_form (val_reg_a : Z) (m : Machine) : Machine :=
  let m := set_ea (sext16 (ppc_cur_instruction m)) m in
  set_ea (u32 (ppc_effective_address m + val_reg_a)) m.

(** [ppc_effective_address = val_reg_a + val_reg_b;] *)
Definition ea_x_form (val_reg_a val_reg_b : Z) (m : Machine) : Machine :=
  set_ea (u32 (val_reg_a + val_reg_b)) m.

Definition ppc_lfsu (m : Machine) : prog Machine :=
  let val_reg_a := gpr m (reg_a m) in
  if negb (reg_a m =? 0) then
    let m := ea_d_form (if negb (reg_a m =? 0) then val_reg_a else 0) m in
    Call (mmu_read_vmem W32 (ppc_effective_address m)) (fun result =>
    let m := set_fpr (reg_d m) (of_float result) m in
    Ret (set_gpr (reg_a m) (ppc_effective_address m) m))
  else illegal_op m.

Definition ppc_lfsux (m : Machine) : prog Machine :=
  let val_reg_a := gpr m (reg_a m) in
  let val_reg_b := gpr m (reg_b m) in
  if negb (reg_a m =? 0) then
    let m := ea_x_form val_reg_a val_reg_b m in
    Call (mmu_read_vmem W32 (ppc_effective_address m)) (fun result =>
    let m := set_fpr (reg_d m) (of_float result) m in
    Ret (set_gpr (reg_a m) (ppc_effective_address m) m))
  else illegal_op m.

Definition ppc_lfdu (m : Machine) : prog Machine :=
  let val_reg_a := gpr m (reg_a m) in
  if negb (reg_a m =? 0) then
    let m := ea_d_form val_reg_a m in
    Call (mmu_read_vmem W64 (ppc_effective_address m)) (fun ppc_result64_d =>
    let m := set_fpr (reg_d m) ppc_result64_d m in
    Ret (set_gpr (reg_a m) (ppc_effective_address m) m))
  else illegal_op m.

Definition ppc_lfdux (m : Machine) : prog Machine :=
  let val_reg_a := gpr m (reg_a m) in
  let val_reg_b := gpr m (reg_b m) in
  if negb (reg_a m =? 0) then
    let m := ea_x_form val_reg_a val_reg_b m in
    Call (mmu_read_vmem W64 (ppc_effective_address m)) (fun ppc_result64_d =>
    let m := set_fpr (reg_d m) ppc_result64_d m in
    Ret (set_gpr (reg_a m) (ppc_effective_address m) m))
  else illegal_op m.

Definition ppc_stfsu (m : Machine) : prog Machine :=
  let val_reg_a := gpr m (reg_a m) in
  if negb (reg_a m =? 0) then
    let m := ea_d_form val_reg_a m in
    let result := to_float (host_round m) (fpr m (reg_s m)) in
    Call (mmu_write_vmem W32 (ppc_effective_address m) result) (fun _ =>
    Ret (set_gpr (reg_a m) (ppc_effective_address m) m))
  else illegal_op m.

Definition ppc_stfsux (m : Machine) : prog Machine :=
  let val_reg_a := gpr m (reg_a m) in
  let val_reg_b := gpr m (reg_b m) in
  if negb (reg_a m =? 0) then
    let m := ea_x_form val_reg_a val_reg_b m in
    let result := to_float (host_round m) (fpr m (reg_s m)) in
    Call (mmu_write_vmem W32 (ppc_effective_address m) result) (fun _ =>
    Ret (set_gpr (reg_a m) (ppc_effective_address m) m))
  else illegal_op m.

Definition ppc_stfdu (m : Machine) : prog Machine :=
  let val_reg_a := gpr m (reg_a m) in
  if negb (reg_a m =? 0) then
    let m := ea_d_form val_reg_a m in
    Call (mmu_write_vmem W64 (ppc_effective_address m) (fpr m (reg_s m)))
         (fun _ =>
    Ret (set_gpr (reg_a m) (ppc_effective_address m) m))
  else illegal_op m.

Definition ppc_stfdux (m : Machine) : prog Machine :=
  let val_reg_a := gpr m (reg_a m) in
  let val_reg_b := gpr m (reg_b m) in
  if negb (reg_a m =? 0) then
    let m := ea_x_form val_reg_a val_reg_b m in
    Call (mmu_write_vmem W64 (ppc_effective_address m) (fpr m (reg_s m)))
         (fun _ =>
    Ret (set_gpr (reg_a m) (ppc_effective_address m) m))
  else illegal_op m.

Definition update_form_handlers : list (Machine -> prog Machine) :=
  [ppc_lfsu; ppc_lfsux; ppc_lfdu; ppc_lfdux;
   ppc_stfsu; ppc_stfsux; ppc_stfdu; ppc_stfdux].

(** *** Floating Point Register Transfer *)

Definition ppc_mtfsf (m : Machine) : Machine :=
  let reg_b := Z.land (Z.shiftr (ppc_cur_instruction m) 11) 0x1F in
  let fm := Z.land (Z.shiftr (ppc_cur_instruction m) 17) 0xFF in
  let cr_mask :=
    if fm =? 0xFF then 0xFFFFFFFF                      (* the fast case *)
    else                                               (* the slow case *)
      let cr_mask := 0 in
      let cr_mask := if tst fm 0x80 then Z.lor cr_mask 0xF0000000 else cr_mask in
      let cr_mask := if tst fm 0x40 then Z.lor cr_mask 0x0F000000 else cr_mask in
      let cr_mask := if tst fm 0x20 then Z.lor cr_mask 0x00F00000 else cr_mask in
      let cr_mask := if tst fm 0x10 then Z.lor cr_mask 0x000F0000 else cr_mask in
      let cr_mask := if tst fm 0x08 then Z.lor cr_mask 0x0000F000 else cr_mask in
      let cr_mask := if tst fm 0x04 then Z.lor cr_mask 0x00000F00 else cr_mask in
      let cr_mask := if tst fm 0x02 then Z.lor cr_mask 0x000000F0 else cr_mask in
      let cr_mask := if tst fm 0x01 then Z.lor cr_mask 0x0000000F else cr_mask in
      cr_mask in
  (* ensure neither FEX nor VX will be changed *)
  let cr_mask := Z.land cr_mask (Z.lnot (Z.lor FEX VX)) in
  (* copy FPR[reg_b] to FPSCR under control of cr_mask *)
  let m :=
    set_fpscr (u32 (Z.lor (Z.land (fpscr m) (Z.lnot cr_mask))
                          (Z.land (fpr m reg_b) cr_mask))) m in
  with_rc m.

Definition ppc_mtfsfi (m : Machine) : Machine :=
  let crf_d := Z.land (Z.shiftr (ppc_cur_instruction m) 21) 0x1C in
  let imm := Z.land (u32 (Z.shiftl (ppc_cur_instruction m) 16)) 0xF0000000 in
  (* prepare field mask and ensure that neither FEX nor VX will be changed *)
  let mask := Z.land (Z.shiftr 0xF0000000 crf_d) (Z.lnot (Z.lor FEX VX)) in
  (* copy imm to FPSCR[crf_d] under control of the field mask *)
  let m :=
    set_fpscr (u32 (Z.lor (Z.land (fpscr m) (Z.lnot mask))
                          (Z.land (Z.shiftr imm crf_d) mask))) m in
  with_rc m.

Definition ppc_mtfsb0 (m : Machine) : Machine :=
  let crf_d := Z.land (Z.shiftr (ppc_cur_instruction m) 21) 0x1F in
  let m :=
    if (crf_d =? 0) || (2 <? crf_d)   (* FEX and VX can't be explicitely cleared *)
    then and_fpscr (Z.lnot (Z.shiftr 0x80000000 crf_d)) m
    else m in
  with_rc m.

Definition ppc_mtfsb1 (m : Machine) : Machine :=
  let crf_d := Z.land (Z.shiftr (ppc_cur_instruction m) 21) 0x1F in
  let m :=
    if (crf_d =? 0) || (2 <? crf_d)   (* FEX and VX can't be explicitely set *)
    then or_fpscr (Z.shiftr 0x80000000 crf_d) m
    else m in
  with_rc m.

Definition fpscr_move_handlers : list (Machine -> Machine) :=
  [ppc_mtfsf; ppc_mtfsfi; ppc_mtfsb0; ppc_mtfsb1].

(** *** Floating Point Comparisons *)

Definition compare_result (db_test_a db_test_b : Z) : Z :=
  if isnan db_test_a || isnan db_test_b then CR.CR_SO
  else if flt db_test_a db_test_b then CR.CR_LT
  else if fgt db_test_a db_test_b then CR.CR_GT
  else CR.CR_EQ.

Definition ppc_fcmpo (m : Machine) : Machine :=
  let db_test_a := fpr m (reg_a m) in
  let db_test_b := fpr m (reg_b m) in
  let cmp_c := compare_result db_test_a db_test_b in
  (* update FPCC *)
  let m :=
    set_fpscr (Z.lor (Z.land (fpscr m) (Z.lnot FPCC_MASK))
                     (Z.shiftr cmp_c 16)) m in
  set_cr (Z.lor (Z.land (cr m) (Z.lnot (Z.shiftr 0xF0000000 (crf_d m))))
                (Z.shiftr cmp_c (crf_d m))) m.

Definition ppc_fcmpu (m : Machine) : Machine :=
  let db_test_a := fpr m (reg_a m) in
  let db_test_b := fpr m (reg_b m) in
  let cmp_c := compare_result db_test_a db_test_b in
  let m :=
    set_fpscr (Z.lor (Z.land (fpscr m) (Z.lnot FPCC_MASK))
                     (Z.shiftr cmp_c 16)) m in
  set_cr (Z.lor (Z.land (cr m) (Z.lnot (Z.shiftr 0xF0000000 (crf_d m))))
                (Z.shiftr cmp_c (crf_d m))) m.

End Handlers.

(** ** MacIO interrupt registers ([devices/ioctrl/macio.h]) *)

Module MacIO.

(** Interrupt related constants. *)
Definition MACIO_INT_CLR  : Z := 0x80.
Definition MACIO_INT_MODE : Z := 0x80000000.

(** Offsets to common MacIO interrupt registers. *)
Definition MIO_INT_EVENTS2 : Z := 0x10.
Definition MIO_INT_MASK2   : Z := 0x14.
Definition MIO_INT_CLEAR2  : Z := 0x18.
Definition MIO_INT_LEVELS2 : Z := 0x1C.
Definition MIO_INT_EVENTS1 : Z := 0x20.
Definition MIO_INT_MASK1   : Z := 0x24.
Definition MIO_INT_CLEAR1  : Z := 0x28.
Definition MIO_INT_LEVELS1 : Z := 0x2C.

End MacIO.

(** ** Generic SCSI hard disk *)

Module ScsiHd.

(** The disk image is a [std::fstream].  Of the stream only what
    [seekg] reads and writes is kept: the position of the underlying
    file buffer and the state flags.  [seekg(off, dir)] first clears
    [eofbit]; on a stream that has failed it does nothing more;
    otherwise it moves the position, and sets [failbit] when the
    target lies before the beginning of the file. *)
Inductive seekdir : Set := beg | cur | end_.

Record fstream : Type := mkStream {
  file_size : Z;
  pos : Z;
  eofbit : bool;
  failbit : bool;
  badbit : bool
}.

Definition fail (s : fstream) : bool := failbit s || badbit s.

Definition seekg (off : Z) (dir : seekdir) (s : fstream) : fstream :=
  let s := mkStream (file_size s) (pos s) false (failbit s) (badbit s) in
  if fail s then s
  else
    let target :=
      match dir with
      | beg => off
      | cur => pos s + off
      | end_ => file_size s + off
      end in
    if target <? 0
    then mkStream (file_size s) (pos s) false true (badbit s)
    else mkStream (file_size s) target false (failbit s) (badbit s).

Definition tellg (s : fstream) : Z := if fail s then -1 else pos s.

(** The members of [ScsiHardDisk] next to the stream. *)
Record ScsiHardDisk : Type := mkDisk {
  hdd_img : fstream;
  img_size : Z;
  img_buffer : list Z
}.

Definition sector_size : Z := 512.

Definition seek (lba : Z) (d : ScsiHardDisk) : ScsiHardDisk :=
  mkDisk (seekg 0 beg (hdd_img d)) (img_size d) (img_buffer d).

Definition rewind (d : ScsiHardDisk) : ScsiHardDisk :=
  mkDisk (seekg 0 beg (hdd_img d)) (img_size d) (img_buffer d).

(** [read] and [write] position the stream at [lba * sector_size]
    before the transfer; this is the offset [seek] does not use. *)
Definition device_offset (lba : Z) : Z := u32 (lba * sector_size).

End ScsiHd.

(** ** A host to run the handlers on

    IEEE-754 arithmetic in software, from [SpecFloat]: every operation
    rounds to nearest even whatever the direction asked for, and a NaN
    result is the canonical quiet NaN.  Where the exact result is
    representable (as in the examples below) it is the result of any
    IEEE host in any rounding direction.  [FP_ZERO] has the value of
    the GNU C library, 2. *)

Module SoftFPU.

Definition sign_of (s : bool) (width : Z) : Z :=
  if s then 2 ^ (width - 1) else 0.

(** Pattern of a float in canonical form, for a format with [mw]
    explicit mantissa bits and an exponent field of [ew] bits. *)
Definition encode (mw ew : Z) (x : spec_float) : Z :=
  let expo_all := 2 ^ ew - 1 in
  let bias := 2 ^ (ew - 1) - 1 in
  match x with
  | S754_zero s => sign_of s (mw + ew + 1)
  | S754_infinity s => sign_of s (mw + ew + 1) + expo_all * 2 ^ mw
  | S754_nan => expo_all * 2 ^ mw + 2 ^ (mw - 1)
  | S754_finite s m e =>
      if Z.pos m <? 2 ^ mw
      then sign_of s (mw + ew + 1) + Z.pos m
      else sign_of s (mw + ew + 1)
           + (e + bias + mw) * 2 ^ mw + (Z.pos m - 2 ^ mw)
  end.

Definition decode (mw ew : Z) (b : Z) : spec_float :=
  let bias := 2 ^ (ew - 1) - 1 in
  let s := Z.testbit b (mw + ew) in
  let e := Z.land (Z.shiftr b mw) (Z.ones ew) in
  let f := Z.land b (Z.ones mw) in
  if e =? 0 then
    match f with
    | Zpos p => S754_finite s p (1 - bias - mw)
    | _ => S754_zero s
    end
  else if e =? Z.ones ew then
    (if f =? 0 then S754_infinity s else S754_nan)
  else
    match f + 2 ^ mw with
    | Zpos p => S754_finite s p (e - bias - mw)
    | _ => S754_nan
    end.

Definition encode64 := encode 52 11.
Definition encode32 := encode 23 8.
Definition decode32 := decode 23 8.

(** Rounding of a value to the format of precision [prec]. *)
Definition normalize (prec emax : Z) (x : spec_float) : spec_float :=
  match x with
  | S754_finite s m e =>
      binary_normalize prec emax (cond_Zopp s (Z.pos m)) e s
  | _ => x
  end.

Definition binop (f : Z -> Z -> spec_float -> spec_float -> spec_float)
           (a b : Z) : Z :=
  encode64 (f 53 1024 (dbl a) (dbl b)).

(** [x * y + z] with a single rounding. *)
Definition SFfma (x y z : spec_float) : spec_float :=
  match x, y, z with
  | S754_finite sx mx ex, S754_finite sy my ey, S754_finite _ _ _ =>
      SFadd 53 1024 (S754_finite (xorb sx sy) (mx * my) (ex + ey)) z
  | _, _, _ => SFadd 53 1024 (SFmul 53 1024 x y) z
  end.

#[export] Instance nearest_fpu : HostFPU := {|
  fp_add  := fun _ => binop SFadd;
  fp_sub  := fun _ => binop SFsub;
  fp_mul  := fun _ => binop SFmul;
  fp_div  := fun _ => binop SFdiv;
  fp_fma  := fun _ a b c => encode64 (SFfma (dbl a) (dbl b) (dbl c));
  fp_sqrt := fun _ a => encode64 (SFsqrt 53 1024 (dbl a));
  to_float := fun _ d => encode32 (normalize 24 128 (dbl d));
  of_float := fun f => encode64 (normalize 53 1024 (decode32 f));
  FP_ZERO := 0x4000000000000000
|}.

End SoftFPU.

(** ** Properties of the FPSCR and of the host, as predicates *)

Module Props.

Import FPSCR.

(** The OR of the five exception summaries, each gated by its enable. *)
Definition fex_summary (f : Z) : bool :=
  (tst f VX && tst f VE) || (tst f OX && tst f OE)
  || (tst f UX && tst f UE) || (tst f ZX && tst f ZE)
  || (tst f XX && tst f XE).

(** The same pairs by bit position: exception bit [i], enable bit
    [i - 22]. *)
Definition pair_set (f i : Z) : bool :=
  Z.testbit f i && Z.testbit f (i - 22).

(** FEX is that OR. *)
Definition fex_ok (f : Z) : Prop := tst f FEX = fex_summary f.

(** The rounding direction FPSCR[RN] names: 00 nearest-even,
    01 toward zero, 10 toward +infinity, 11 toward -infinity. *)
Definition rn_direction (f : Z) : fe_round :=
  match Z.land f RN_MASK with
  | 0 => FE_TONEAREST
  | 1 => FE_TOWARDZERO
  | 2 => FE_UPWARD
  | _ => FE_DOWNWARD
  end.

Definition host_in_sync (m : Machine) : Prop :=
  host_round m = rn_direction (fpscr m).

(** The FPCC a result calls for: FU for a NaN, otherwise FG, FL or FE
    by sign, with FU added for an infinity. *)
Definition fpcc_of (r : Z) : Z :=
  if isnan r then FPCC_FUNAN
  else
    Z.lor (if fgt r zero then FPCC_POS
           else if flt r zero then FPCC_NEG else FPCC_ZERO)
          (if isinf r then FPCC_FUNAN else 0).

(** The bits [fpresult_update] ORs into the FPSCR for a result. *)
Definition fprf_of (r : Z) : Z :=
  if isnan r then Z.lor FPCC_FUNAN FPRCD else fpcc_of r.

(** Every bit set in [a] is set in [b]. *)
Definition subset (a b : Z) : Prop := Z.land a b = a.

(** A signalling NaN: a NaN whose quiet bit is clear. *)
Definition issnan (b : Z) : bool :=
  isnan b && negb (tst b 0x0008000000000000).

(** The FPSCR the two invalid branches of [round_to_int] build: FR
    and FI cleared, VXCVI and VX set, and VXSNAN too for a
    signalling NaN. *)
Definition invalid_cvi (f : Z) : Z :=
  Z.lor (Z.land f (Z.lnot (Z.lor FR FI))) (Z.lor VXCVI VX).

Definition invalid_fpscr (b f : Z) : Z :=
  if issnan b then Z.lor (invalid_cvi f) VXSNAN else invalid_cvi f.

(** The sentinel a NaN or out-of-range operand converts to. *)
Definition saturated (b : Z) : Z :=
  if isnan b then 0xFFF8000080000000
  else if fge b zero then 0xFFF800007FFFFFFF
  else 0xFFF8000080000000.



(** The register table of the interrupt controllers as the design
    document prints it. *)
Definition documented_int_layout : Prop :=
  MacIO.MIO_INT_EVENTS2 = 0x10 /\ MacIO.MIO_INT_MASK2 = 0x14
  /\ MacIO.MIO_INT_LEVELS2 = 0x18
  /\ MacIO.MIO_INT_EVENTS1 = 0x20 /\ MacIO.MIO_INT_MASK1 = 0x24
  /\ MacIO.MIO_INT_LEVELS1 = 0x2C.

End Props.

(** ** Concrete machines *)

Module Examples.

Import SoftFPU.

(** Registers, FPSCR and CR all zero, host rounding to nearest. *)
Definition reset : Machine :=
  mkMachine (fun _ => 0) (fun _ => 0) 0 0 0 false 0 FE_TONEAREST.

(** The instruction word in place, with [rc_flag] its low bit. *)
Definition fetch (instr : Z) (m : Machine) : Machine :=
  mkMachine (fpr m) (gpr m) (fpscr m) (cr m) instr (Z.odd instr)
            (ppc_effective_address m) (host_round m).

Definition qnan : Z := 0x7FF8000000000000.
Definition three_e10 : Z := 0x421BF08EB0000000.    (* 3.0e10 *)

(** [lfsu f1, 4(r0)] *)
Definition at_lfsu : Machine := fetch 0xC4200004 (set_gpr 0 0x1000 reset).

(** [fsel f1, f2, f3, f4] with f2 a quiet NaN. *)
Definition at_fsel : Machine :=
  fetch 0xFC2220EE
        (set_fpr 2 qnan (set_fpr 3 one (set_fpr 4 neg_one reset))).

(** [fctiwz f1, f2] with f2 = 3.0e10 and a clear FPSCR. *)
Definition at_fctiwz : Machine :=
  fetch 0xFC20101E (set_fpr 2 three_e10 reset).

(** [fres f1, f2] with f2 = 0.0 and the zero-divide exception
    enabled. *)
Definition at_fres : Machine :=
  fetch 0xEC201030 (set_fpscr FPSCR.ZE reset).

(** [fadd f1, f2, f3] on -1.0 and -1.0, then [fadd f4, f5, f6] on
    1.0 and 1.0. *)
Definition at_fadd_neg : Machine :=
  fetch 0xFC22182A
        (set_fpr 2 neg_one (set_fpr 3 neg_one
           (set_fpr 5 one (set_fpr 6 one reset)))).

Definition after_two_fadd : Machine :=
  ppc_fadd (fetch 0xFC85302A (ppc_fadd at_fadd_neg)).

(** [fcmpo cr1, f2, f3] with f2 a quiet NaN and f3 = 1.0. *)
Definition at_fcmpo : Machine :=
  fetch 0xFC821840 (set_fpr 2 qnan (set_fpr 3 one reset)).

(** [mtfsf 0xFF, f2] with the low word of f2 = 1: RN becomes 01. *)
Definition at_mtfsf : Machine :=
  fetch 0xFDFE158E (set_fpr 2 1 reset).

(** A disk whose image is open, 1 MiB long, positioned at 4096. *)
Definition disk : ScsiHd.ScsiHardDisk :=
  ScsiHd.mkDisk (ScsiHd.mkStream 0x100000 4096 false false false)
                0x100000 [].

End Examples.

(** ** The remaining handlers of [ppcfpopcodes.cpp] *)

Section MoreHandlers.

Context {host : HostFPU}.

Import FPSCR.

(** *** Register moves and FPSCR reads *)

Definition ppc_fneg (m : Machine) : Machine :=
  let ppc_dblresult64_d := fneg (fpr m (reg_b m)) in
  with_rc (set_fpr (reg_d m) ppc_dblresult64_d m).

Definition ppc_frsp (m : Machine) : Machine :=
  let ppc_dblresult64_d := fp_single (host_round m) (fpr m (reg_b m)) in
  with_rc (set_fpr (reg_d m) ppc_dblresult64_d m).

Definition ppc_fmr (m : Machine) : Machine :=
  with_rc (set_fpr (reg_d m) (fpr m (reg_b m)) m).

(** [ppc_grab_regsda] comes from the header; of the two register
    numbers it extracts only [reg_d] is used, the field every other
    macro of the file calls so. *)
Definition ppc_mffs (m : Machine) : Machine :=
  with_rc (set_fpr (reg_d m) (Z.lor (fpscr m) 0xFFF8000000000000) m).

Definition ppc_mffs_601 (m : Machine) : Machine :=
  with_rc (set_fpr (reg_d m) (Z.lor (fpscr m) 0xFFFFFFFF00000000) m).

(** The FPSCR bits that can be explicitly cleared. *)
Definition mcrfs_clearable : Z :=
  Z.lor FX (Z.lor OX (Z.lor UX (Z.lor ZX (Z.lor XX (Z.lor VXSNAN
  (Z.lor VXISI (Z.lor VXIDI (Z.lor VXZDZ (Z.lor VXIMZ (Z.lor VXVC
  (Z.lor VXSOFT (Z.lor VXSQRT VXCVI)))))))))))).

Definition ppc_mcrfs (m : Machine) : Machine :=
  let crf_d := Z.land (Z.shiftr (ppc_cur_instruction m) 21) 0x1C in
  let crf_s := Z.land (Z.shiftr (ppc_cur_instruction m) 16) 0x1C in
  let m :=
    set_cr (u32 (Z.lor (Z.land (cr m) (Z.lnot (Z.shiftr 0xF0000000 crf_d)))
                       (Z.shiftr (Z.land (u32 (Z.shiftl (fpscr m) crf_s))
                                         0xF0000000) crf_d))) m in
  and_fpscr (Z.lnot (Z.land (Z.shiftr 0xF0000000 crf_s) mcrfs_clearable)) m.

(** *** Floating Point Store and Load, without update *)

(** [ppc_effective_address = (reg_a) ? val_reg_a + val_reg_b : val_reg_b;] *)
Definition ea_x_form_or_0 (m : Machine) : Machine :=
  let val_reg_a := gpr m (reg_a m) in
  let val_reg_b := gpr m (reg_b m) in
  set_ea (if negb (reg_a m =? 0) then u32 (val_reg_a + val_reg_b)
          else val_reg_b) m.

(** [ppc_effective_address = int32_t(int16_t(ppc_cur_instruction));
     ppc_effective_address += (reg_a) ? val_reg_a : 0;] *)
Definition ea_d_form_or_0 (m : Machine) : Machine :=
  let val_reg_a := gpr m (reg_a m) in
  ea_d_form (if negb (reg_a m =? 0) then val_reg_a else 0) m.

Definition ppc_lfs (m : Machine) : prog Machine :=
  let m := ea_d_form_or_0 m in
  Call (mmu_read_vmem W32 (ppc_effective_address m)) (fun result =>
  Ret (set_fpr (reg_d m) (of_float result) m)).

Definition ppc_lfsx (m : Machine) : prog Machine :=
  let m := ea_x_form_or_0 m in
  Call (mmu_read_vmem W32 (ppc_effective_address m)) (fun result =>
  Ret (set_fpr (reg_d m) (of_float result) m)).

Definition ppc_lfd (m : Machine) : prog Machine :=
  let m := ea_d_form_or_0 m in
  Call (mmu_read_vmem W64 (ppc_effective_address m)) (fun ppc_result64_d =>
  Ret (set_fpr (reg_d m) ppc_result64_d m)).

Definition ppc_lfdx (m : Machine) : prog Machine :=
  let m := ea_x_form_or_0 m in
  Call (mmu_read_vmem W64 (ppc_effective_address m)) (fun ppc_result64_d =>
  Ret (set_fpr (reg_d m) ppc_result64_d m)).

Definition ppc_stfs (m : Machine) : prog Machine :=
  let m := ea_d_form_or_0 m in
  let result := to_float (host_round m) (fpr m (reg_s m)) in
  Call (mmu_write_vmem W32 (ppc_effective_address m) result) (fun _ => Ret m).

Definition ppc_stfsx (m : Machine) : prog Machine :=
  let m := ea_x_form_or_0 m in
  let result := to_float (host_round m) (fpr m (reg_s m)) in
  Call (mmu_write_vmem W32 (ppc_effective_address m) result) (fun _ => Ret m).

Definition ppc_stfd (m : Machine) : prog Machine :=
  let m := ea_d_form_or_0 m in
  Call (mmu_write_vmem W64 (ppc_effective_address m) (fpr m (reg_s m)))
       (fun _ => Ret m).

Definition ppc_stfdx (m : Machine) : prog Machine :=
  let m := ea_x_form_or_0 m in
  Call (mmu_write_vmem W64 (ppc_effective_address m) (fpr m (reg_s m)))
       (fun _ => Ret m).

Definition ppc_stfiwx (m : Machine) : prog Machine :=
  let m := ea_x_form_or_0 m in
  Call (mmu_write_vmem W32 (ppc_effective_address m) (u32 (fpr m (reg_s m))))
       (fun _ => Ret m).

(** Each update form with the form without update it extends. *)
Definition update_pairs
  : list ((Machine -> prog Machine) * (Machine -> prog Machine)) :=
  [(ppc_lfsu, ppc_lfs); (ppc_lfsux, ppc_lfsx);
   (ppc_lfdu, ppc_lfd); (ppc_lfdux, ppc_lfdx);
   (ppc_stfsu, ppc_stfs); (ppc_stfsux, ppc_stfsx);
   (ppc_stfdu, ppc_stfd); (ppc_stfdux, ppc_stfdx)].

Definition d_form_handlers : list (Machine -> prog Machine) :=
  [ppc_lfs; ppc_lfd; ppc_stfs; ppc_stfd].

Definition x_form_handlers : list (Machine -> prog Machine) :=
  [ppc_lfsx; ppc_lfdx; ppc_stfsx; ppc_stfdx; ppc_stfiwx].

End MoreHandlers.

(** ** SCSI hard disk transfers

    What [ScsiHardDisk::read] and [ScsiHardDisk::write] ask of the
    image: both start with the same two computations. *)

Module ScsiTransfer.

(** [transfer_size = (transfer_len == 0) ? 256 : transfer_len;
     transfer_size *= sector_size;] on a [uint32_t]. *)
Definition transfer_size (transfer_len : Z) : Z :=
  u32 ((if transfer_len =? 0 then 256 else transfer_len) * ScsiHd.sector_size).

(** The stream after [hdd_img.seekg(device_offset, hdd_img.beg)]. *)
Definition position (lba : Z) (d : ScsiHd.ScsiHardDisk) : ScsiHd.fstream :=
  ScsiHd.seekg (ScsiHd.device_offset lba) ScsiHd.beg (ScsiHd.hdd_img d).

End ScsiTransfer.

(** ** More predicates *)

Module Props2.

Import FPSCR.

(** The condition under which [ppc_confirm_inf_nan] raises FX. *)
Definition fx_condition {host : HostFPU} (fpop : FPOP) (a b : Z) : bool :=
  match fpop with
  | DIV => (isinf a && isinf b) || (feq a FP_ZERO && feq b FP_ZERO)
  | SUB => (isinf a && isinf b) || (isnan a && isnan b)
  | ADD => isnan a && isnan b
  | SQRT => isnan b || feq b neg_one
  | MUL => isnan a && isnan b
  end.

(** The bits [ppc_confirm_inf_nan] may write. *)
Definition confirm_writes : Z :=
  Z.lor FX (Z.lor FEX (Z.lor VXIDI (Z.lor VXZDZ (Z.lor VXISI VXSQRT)))).

(** The bits the FEX invariant reads: FEX, the five summaries and
    their enables. *)
Definition fex_reads : Z := 0x7E0000F8.

(** FPRF: the class bit and the FPCC. *)
Definition FPRF_MASK : Z := Z.lor FPRCD FPCC_MASK.

(** A 32-bit word read as an [int32_t]. *)
Definition signed32 (w : Z) : Z := if w <? 2 ^ 31 then w else w - 2 ^ 32.

(** The operand is a number within the [int32_t] range: the branch of
    [round_to_int] that converts. *)
Definition convertible (b : Z) : bool :=
  negb (isnan b) && negb (fgt b int32_max || flt b int32_min).

(** The integer the conversion produces in the directed modes:
    [round_to_zero] for 1, [round_to_pos_inf] for 2, [round_to_neg_inf]
    for 3, before the cast to [uint32_t]. *)
Definition int_rounding (mode : Z) (x : spec_float) : Z :=
  match Z.land mode 0x3 with
  | 1 => truncZ x
  | 2 => ceilZ x
  | _ => floorZ x
  end.

(** The outcome of a compare with the operands exchanged. *)
Definition swap_outcome (c : Z) : Z :=
  if c =? CR.CR_LT then CR.CR_GT
  else if c =? CR.CR_GT then CR.CR_LT
  else c.

(** Two 32-bit words that agree on every bit outside [W]. *)
Definition same_outside (W a b : Z) : Prop :=
  forall i, 0 <= i < 32 -> Z.testbit W i = false ->
            Z.testbit a i = Z.testbit b i.

(** A step that writes nothing but the FPSCR. *)
Definition only_fpscr (m m' : Machine) : Prop :=
  fpr m' = fpr m /\ gpr m' = gpr m /\ cr m' = cr m
  /\ ppc_cur_instruction m' = ppc_cur_instruction m
  /\ rc_flag m' = rc_flag m
  /\ ppc_effective_address m' = ppc_effective_address m
  /\ host_round m' = host_round m.

(** The slow case of [ppc_mtfsf]: one nibble per bit of FM. *)
Definition mtfsf_slow_mask (fm : Z) : Z :=
  let cr_mask := 0 in
  let cr_mask := if tst fm 0x80 then Z.lor cr_mask 0xF0000000 else cr_mask in
  let cr_mask := if tst fm 0x40 then Z.lor cr_mask 0x0F000000 else cr_mask in
  let cr_mask := if tst fm 0x20 then Z.lor cr_mask 0x00F00000 else cr_mask in
  let cr_mask := if tst fm 0x10 then Z.lor cr_mask 0x000F0000 else cr_mask in
  let cr_mask := if tst fm 0x08 then Z.lor cr_mask 0x0000F000 else cr_mask in
  let cr_mask := if tst fm 0x04 then Z.lor cr_mask 0x00000F00 else cr_mask in
  let cr_mask := if tst fm 0x02 then Z.lor cr_mask 0x000000F0 else cr_mask in
  let cr_mask := if tst fm 0x01 then Z.lor cr_mask 0x0000000F else cr_mask in
  cr_mask.

(** The FM and rB fields of [mtfsf], the bit index of [mtfsb0] and
    [mtfsb1], the source field of [mcrfs]. *)
Definition fm_field (m : Machine) : Z :=
  Z.land (Z.shiftr (ppc_cur_instruction m) 17) 0xFF.
Definition bit_index (m : Machine) : Z :=
  Z.land (Z.shiftr (ppc_cur_instruction m) 21) 0x1F.
Definition crf_s (m : Machine) : Z :=
  Z.land (Z.shiftr (ppc_cur_instruction m) 16) 0x1C.

(** FEX or VX, by position. *)
Definition is_FEX_or_VX (i : Z) : bool := (i =? 29) || (i =? 30).

(** [(rA|0) + d] and [(rA|0) + rB]: register 0 as a base reads as
    zero. *)
Definition d_form_address (m : Machine) : Z :=
  u32 (sext16 (ppc_cur_instruction m)
       + (if reg_a m =? 0 then 0 else gpr m (reg_a m))).

Definition x_form_address (m : Machine) : Z :=
  if reg_a m =? 0 then gpr m (reg_b m)
  else u32 (gpr m (reg_a m) + gpr m (reg_b m)).

(** Address of the one MMU access in a trace. *)
Definition access_address (c : call) : option Z :=
  match c with
  | mmu_read_vmem _ ea => Some ea
  | mmu_write_vmem _ ea _ => Some ea
  | _ => None
  end.

(** The outcome of the IEEE comparison, in the top nibble as the
    compare handlers hold it before shifting. *)
Definition ieee_outcome (x y : spec_float) : Z :=
  match SFcompare x y with
  | None => CR.CR_SO
  | Some Lt => CR.CR_LT
  | Some Gt => CR.CR_GT
  | Some Eq => CR.CR_EQ
  end.

(** The sector addressed by [lba] once the byte offset has wrapped
    to 32 bits. *)
Definition wrapped_sector (lba : Z) : Z := lba mod 2 ^ 23.

End Props2.


(** * Theorems *)

(** ** Bits *)

Section Bits.

Import Word.

Lemma testbit_u32 x i :
  0 <= i -> Z.testbit (u32 x) i = Z.testbit x i && (i <? 32).
Proof.
  intros Hi. unfold u32.
  rewrite Z.land_spec, Z.testbit_ones_nonneg by lia. reflexivity.
Qed.

Lemma land_pow2 f k :
  0 <= k -> Z.land f (2 ^ k) = if Z.testbit f k then 2 ^ k else 0.
Proof.
  intros Hk. apply Z.bits_inj'. intros i Hi.
  rewrite Z.land_spec, Z.pow2_bits_eqb by lia.
  destruct (Z.eqb_spec k i) as [->|Hne].
  - destruct (Z.testbit f i);
      [rewrite Z.pow2_bits_true by lia|rewrite Z.bits_0]; reflexivity.
  - rewrite andb_false_r.
    destruct (Z.testbit f k);
      [rewrite Z.pow2_bits_false by lia|rewrite Z.bits_0]; reflexivity.
Qed.

Lemma tst_pow2 f k : 0 <= k -> tst f (2 ^ k) = Z.testbit f k.
Proof.
  intros Hk. unfold tst. rewrite land_pow2 by lia.
  destruct (Z.testbit f k); [|reflexivity].
  assert (0 < 2 ^ k) by (apply Z.pow_pos_nonneg; lia).
  destruct (Z.eqb_spec (2 ^ k) 0); [lia|reflexivity].
Qed.

(** A five-bit field of any word is a register number. *)
Lemma land_31_range x : 0 <= Z.land x 31 < 32.
Proof.
  change 31 with (Z.ones 5). rewrite Z.land_ones by lia.
  apply Z.mod_pos_bound. lia.
Qed.

(** [(f & ~c') | (b & c')] with [c' = c & ~K] leaves the bits of [K]
    as they are in [f]. *)
Lemma merge_keeps f b c K bit :
  Z.land K bit = bit -> Z.land bit (Z.ones 32) = bit ->
  Z.land (u32 (Z.lor (Z.land f (Z.lnot (Z.land c (Z.lnot K))))
                     (Z.land b (Z.land c (Z.lnot K))))) bit
  = Z.land f bit.
Proof.
  intros HK H32. apply Z.bits_inj'. intros i Hi.
  apply (f_equal (fun z => Z.testbit z i)) in HK, H32.
  rewrite Z.land_spec in HK, H32.
  rewrite Z.testbit_ones_nonneg in H32 by lia.
  rewrite !Z.land_spec, testbit_u32, Z.lor_spec, !Z.land_spec,
    !Z.lnot_spec, !Z.land_spec, Z.lnot_spec by lia.
  destruct (Z.testbit f i), (Z.testbit b i), (Z.testbit c i),
    (Z.testbit K i), (Z.testbit bit i), (i <? 32);
    simpl in *; congruence.
Qed.

(** Clearing or setting bits disjoint from [K] does not show
    through [K]. *)
Lemma clear_disjoint f s K :
  Z.land s K = 0 -> Z.land (Z.land f (Z.lnot s)) K = Z.land f K.
Proof.
  intros H. apply Z.bits_inj'. intros i Hi.
  apply (f_equal (fun z => Z.testbit z i)) in H.
  rewrite Z.land_spec, Z.bits_0 in H.
  rewrite !Z.land_spec, Z.lnot_spec by lia.
  destruct (Z.testbit f i), (Z.testbit s i), (Z.testbit K i);
    simpl in *; congruence.
Qed.

Lemma set_disjoint f s K :
  Z.land s K = 0 -> Z.land (Z.lor f s) K = Z.land f K.
Proof.
  intros H. rewrite Z.land_lor_distr_l, H. apply Z.lor_0_r.
Qed.

(** Keeping the bits of a mask that contains [K]. *)
Lemma keep_superset f mask K :
  Z.land mask K = K -> Z.land (Z.land f mask) K = Z.land f K.
Proof.
  intros H. rewrite <- Z.land_assoc, H. reflexivity.
Qed.

Lemma lor_absorbs f s : Z.land f (Z.lor f s) = f.
Proof.
  apply Z.bits_inj'. intros i Hi.
  rewrite Z.land_spec, Z.lor_spec.
  destruct (Z.testbit f i), (Z.testbit s i); reflexivity.
Qed.

End Bits.

(** ** Frame lemmas of the state updates *)

Section Frames.

Context {host : HostFPU}.

Lemma fpscr_with_rc m : fpscr (with_rc m) = fpscr m.
Proof. unfold with_rc. destruct (rc_flag m); reflexivity. Qed.

Lemma fpr_with_rc m : fpr (with_rc m) = fpr m.
Proof. unfold with_rc. destruct (rc_flag m); reflexivity. Qed.

Lemma gpr_with_rc m : gpr (with_rc m) = gpr m.
Proof. unfold with_rc. destruct (rc_flag m); reflexivity. Qed.

Lemma host_round_with_rc m : host_round (with_rc m) = host_round m.
Proof. unfold with_rc. destruct (rc_flag m); reflexivity. Qed.

End Frames.

(** ** Update forms with rA = 0 *)

Section UpdateForms.

Context {host : HostFPU}.

Lemma update_form_rA0 h m :
  In h update_form_handlers -> reg_a m = 0 -> h m = illegal_op m.
Proof.
  unfold update_form_handlers. intros Hin Hra. simpl in Hin.
  repeat (destruct Hin as [<-|Hin];
          [ cbv beta delta [ppc_lfsu ppc_lfsux ppc_lfdu ppc_lfdux
                            ppc_stfsu ppc_stfsux ppc_stfdu ppc_stfdux];
            rewrite Hra; reflexivity | ]).
  contradiction.
Qed.

(** C1.  A floating-point load or store with update (lfsu, lfsux,
    lfdu, lfdux, stfsu, stfsux, stfdu, stfdux) whose rA field is 0
    does one thing only: it calls
    [ppc_exception_handler(EXC_PROGRAM, ILLEGAL_OP)].  Whatever the
    environment answers, that call is the whole trace, so the MMU is
    never entered, and the machine the handler leaves is the one it
    found: no FPR, no GPR and not the effective address is written. *)
Theorem update_form_rA0_illegal h m :
  In h update_form_handlers -> reg_a m = 0 ->
  h m = Call (ppc_exception_handler EXC_PROGRAM ILLEGAL_OP)
             (fun _ => Ret m)
  /\ (forall env,
        run env (h m)
        = ([ppc_exception_handler EXC_PROGRAM ILLEGAL_OP], m))
  /\ (forall env,
        existsb is_mmu_access (fst (run env (h m))) = false).
Proof.
  intros Hin Hra. rewrite (update_form_rA0 h m Hin Hra).
  repeat split.
Qed.

End UpdateForms.

Section UpdateFormExamples.

Import SoftFPU.

(** [lfsu f1, 4(r0)] on the software host. *)
Lemma update_form_rA0_illegal_witness :
In ppc_lfsu update_form_handlers
/\ reg_a Examples.at_lfsu = 0
/\ run (fun _ => 0) (ppc_lfsu Examples.at_lfsu)
   = ([ppc_exception_handler EXC_PROGRAM ILLEGAL_OP], Examples.at_lfsu).
Proof.
split; [simpl; auto|]. split; [reflexivity|].
apply (update_form_rA0_illegal (host := SoftFPU.nearest_fpu)
         ppc_lfsu Examples.at_lfsu); [simpl; auto | reflexivity].
Defined.

(** With rA different from 0 the same handler does reach the MMU. *)
Example lfsu_rA3_reads :
fst (run (fun _ => 0)
       (ppc_lfsu (Examples.fetch 0xC4230004
                    (set_gpr 3 0x1000 Examples.reset))))
= [mmu_read_vmem W32 0x1004].
Proof. reflexivity. Qed.

End UpdateFormExamples.

(** ** fsel *)

Section Fsel.

Import FPSCR.

(** A NaN compares below nothing. *)
Lemma ge_nan a b : isnan a = true -> fge a b = false.
Proof.
  unfold isnan, fge, SFleb, SFcompare. intros H.
  destruct (dbl a); try discriminate.
  destruct (dbl b); reflexivity.
Qed.

(** [x >= -0.0] holds for both zeros, for the positive numbers and
    for +infinity. *)
Lemma ge_neg_zero a :
  fge a neg_zero
  = match dbl a with
    | S754_zero _ => true
    | S754_infinity s | S754_finite s _ _ => negb s
    | S754_nan => false
    end.
Proof.
  unfold fge. change (dbl neg_zero) with (S754_zero true).
  destruct (dbl a) as [s|s| |s mant e]; try destruct s; reflexivity.
Qed.

(** C5.  fsel writes frC to frD when frA >= -0.0 and frB otherwise
    (so frB when frA is a NaN), and writes nothing else of the
    floating-point state: every other FPR, the FPSCR (hence every VX
    cause bit), the GPRs and the host rounding mode are as before.
    The handler is a plain state transformer: it calls neither
    exception routine. *)
Theorem ppc_fsel_selects (m : Machine) :
  fpr (ppc_fsel m)
  = upd (fpr m) (reg_d m)
        (if fge (fpr m (reg_a m)) neg_zero
         then fpr m (reg_c m) else fpr m (reg_b m))
  /\ fpscr (ppc_fsel m) = fpscr m
  /\ gpr (ppc_fsel m) = gpr m
  /\ host_round (ppc_fsel m) = host_round m
  /\ (if isnan (fpr m (reg_a m))
      then fpr (ppc_fsel m) (reg_d m) = fpr m (reg_b m) else True).
Proof.
  unfold ppc_fsel.
  rewrite fpr_with_rc, fpscr_with_rc, gpr_with_rc, host_round_with_rc.
  do 4 (split; [reflexivity|]).
  destruct (isnan (fpr m (reg_a m))) eqn:Hnan; [|exact I].
  rewrite (ge_nan _ _ Hnan). cbn [fpr set_fpr]. unfold upd.
  rewrite Z.eqb_refl. reflexivity.
Qed.

Example fsel_on_nan :
  fpr (ppc_fsel Examples.at_fsel) 1 = neg_one
  /\ fpscr (ppc_fsel Examples.at_fsel) = 0.
Proof. split; vm_compute; reflexivity. Qed.

End Fsel.

(** ** Moves to the FPSCR *)

Section FpscrMoves.

Import FPSCR.

Lemma mtfsb_bit_disjoint k K :
  0 <= k < 32 -> k <> 1 -> k <> 2 -> (K = FEX \/ K = VX) ->
  Z.land (Z.shiftr 0x80000000 k) K = 0.
Proof.
  intros Hk H1 H2 HK.
  assert (Hcases : k = 0 \/ (3 <= k < 32)) by lia.
  destruct Hcases as [->|Hr]; [destruct HK as [->| ->]; reflexivity|].
  assert (Hs : Z.shiftr 0x80000000 k = 2 ^ (31 - k)).
  { change 0x80000000 with (2 ^ 31).
    rewrite Z.shiftr_div_pow2 by lia.
    rewrite <- Z.pow_sub_r by lia. reflexivity. }
  rewrite Hs, Z.land_comm, land_pow2 by lia.
  assert (Hb : Z.testbit K (31 - k) = false).
  { destruct HK as [->| ->].
    - change FEX with (2 ^ 30). apply Z.pow2_bits_false. lia.
    - change VX with (2 ^ 29). apply Z.pow2_bits_false. lia. }
  rewrite Hb. reflexivity.
Qed.

Lemma mtfsf_keeps m K :
  K = FEX \/ K = VX ->
  Z.land (fpscr (ppc_mtfsf m)) K = Z.land (fpscr m) K.
Proof.
  intros HK. unfold ppc_mtfsf. rewrite fpscr_with_rc. cbn [fpscr set_fpscr].
  apply merge_keeps; destruct HK as [->| ->]; reflexivity.
Qed.

Lemma mtfsfi_keeps m K :
  K = FEX \/ K = VX ->
  Z.land (fpscr (ppc_mtfsfi m)) K = Z.land (fpscr m) K.
Proof.
  intros HK. unfold ppc_mtfsfi. rewrite fpscr_with_rc. cbn [fpscr set_fpscr].
  apply merge_keeps; destruct HK as [->| ->]; reflexivity.
Qed.

Lemma mtfsb0_keeps m K :
  K = FEX \/ K = VX ->
  Z.land (fpscr (ppc_mtfsb0 m)) K = Z.land (fpscr m) K.
Proof.
  intros HK. unfold ppc_mtfsb0. rewrite fpscr_with_rc.
  set (k := Z.land (Z.shiftr (ppc_cur_instruction m) 21) 0x1F).
  assert (Hk : 0 <= k < 32) by apply land_31_range.
  destruct (Z.eqb_spec k 0) as [H0|H0], (Z.ltb_spec 2 k) as [H2|H2];
    cbn [orb]; try reflexivity;
    unfold and_fpscr; cbn [fpscr set_fpscr];
    apply clear_disjoint, mtfsb_bit_disjoint; auto; lia.
Qed.

Lemma mtfsb1_keeps m K :
  K = FEX \/ K = VX ->
  Z.land (fpscr (ppc_mtfsb1 m)) K = Z.land (fpscr m) K.
Proof.
  intros HK. unfold ppc_mtfsb1. rewrite fpscr_with_rc.
  set (k := Z.land (Z.shiftr (ppc_cur_instruction m) 21) 0x1F).
  assert (Hk : 0 <= k < 32) by apply land_31_range.
  destruct (Z.eqb_spec k 0) as [H0|H0], (Z.ltb_spec 2 k) as [H2|H2];
    cbn [orb]; try reflexivity;
    unfold or_fpscr; cbn [fpscr set_fpscr];
    apply set_disjoint, mtfsb_bit_disjoint; auto; lia.
Qed.

(** C10.  mtfsf, mtfsfi, mtfsb0 and mtfsb1 never change FPSCR[FEX]
    nor FPSCR[VX]: whatever the instruction word (field mask,
    immediate, bit index), the source register and the state, both
    bits are after the instruction what they were before it. *)
Theorem fpscr_moves_keep_FEX_VX (m : Machine) :
  (Z.land (fpscr (ppc_mtfsf m)) FEX = Z.land (fpscr m) FEX
   /\ Z.land (fpscr (ppc_mtfsf m)) VX = Z.land (fpscr m) VX)
  /\ (Z.land (fpscr (ppc_mtfsfi m)) FEX = Z.land (fpscr m) FEX
      /\ Z.land (fpscr (ppc_mtfsfi m)) VX = Z.land (fpscr m) VX)
  /\ (Z.land (fpscr (ppc_mtfsb0 m)) FEX = Z.land (fpscr m) FEX
      /\ Z.land (fpscr (ppc_mtfsb0 m)) VX = Z.land (fpscr m) VX)
  /\ (Z.land (fpscr (ppc_mtfsb1 m)) FEX = Z.land (fpscr m) FEX
      /\ Z.land (fpscr (ppc_mtfsb1 m)) VX = Z.land (fpscr m) VX).
Proof.
  repeat split;
    first [ apply mtfsf_keeps | apply mtfsfi_keeps
          | apply mtfsb0_keeps | apply mtfsb1_keeps ]; auto.
Qed.

(** The guard bites: [mtfsb1 1] asks for FEX and [mtfsf 0xFF] offers
    a source with FEX and VX set; neither gets through. *)
Example mtfsb1_FEX_refused :
  fpscr (ppc_mtfsb1 (Examples.fetch 0xFC20004C Examples.reset)) = 0.
Proof. reflexivity. Qed.

Example mtfsf_all_ones :
  fpscr (ppc_mtfsf (Examples.fetch 0xFDFE158E
                      (set_fpr 2 0xFFFFFFFF Examples.reset)))
  = 0x9FFFFFFF.
Proof. reflexivity. Qed.

End FpscrMoves.

(** ** Host rounding mode *)

Section Rounding.

Import FPSCR Props.

Lemma rn_cases f :
  Z.land f RN_MASK = 0 \/ Z.land f RN_MASK = 1
  \/ Z.land f RN_MASK = 2 \/ Z.land f RN_MASK = 3.
Proof.
  unfold RN_MASK. change (Z.land f 0x3) with (Z.land f (Z.ones 2)).
  rewrite Z.land_ones by lia. change (2 ^ 2) with 4.
  assert (0 <= f mod 4 < 4) by (apply Z.mod_pos_bound; lia). lia.
Qed.

(** [set_host_rounding_mode] installs the direction its argument
    names. *)
Lemma set_host_rounding_mode_direction mode m :
  host_round (set_host_rounding_mode mode m) = rn_direction mode.
Proof.
  unfold set_host_rounding_mode, rn_direction.
  destruct (rn_cases mode) as [H|[H|[H|H]]]; rewrite H; reflexivity.
Qed.

Lemma rn_direction_masked f :
  rn_direction (Z.land (Z.land f RN_MASK) 0xFF) = rn_direction f.
Proof.
  unfold rn_direction.
  destruct (rn_cases f) as [H|[H|[H|H]]]; rewrite H; reflexivity.
Qed.

Lemma rn_direction_eq f g :
  Z.land f RN_MASK = Z.land g RN_MASK -> rn_direction f = rn_direction g.
Proof. unfold rn_direction. intros ->. reflexivity. Qed.

(** [update_fpscr] is the one writer of the FPSCR that keeps the
    host in step with RN. *)
Lemma update_fpscr_in_sync new_fpscr m :
  host_in_sync m ->
  host_in_sync (update_fpscr new_fpscr m)
  /\ fpscr (update_fpscr new_fpscr m) = new_fpscr.
Proof.
  unfold host_in_sync, update_fpscr. intros Hsync.
  destruct (Z.eqb_spec (Z.land new_fpscr RN_MASK) (Z.land (fpscr m) RN_MASK))
    as [Heq|Hne]; cbn [negb]; split; try reflexivity.
  - cbn [host_round fpscr set_fpscr]. rewrite Hsync.
    symmetry. apply rn_direction_eq. exact Heq.
  - cbn [host_round fpscr set_fpscr].
    rewrite set_host_rounding_mode_direction.
    apply rn_direction_masked.
Qed.

(** None of the four moves to the FPSCR goes through it: the host
    direction is never written. *)
Lemma fpscr_moves_leave_host m :
  host_round (ppc_mtfsf m) = host_round m
  /\ host_round (ppc_mtfsfi m) = host_round m
  /\ host_round (ppc_mtfsb0 m) = host_round m
  /\ host_round (ppc_mtfsb1 m) = host_round m.
Proof.
  unfold ppc_mtfsf, ppc_mtfsfi, ppc_mtfsb0, ppc_mtfsb1.
  rewrite !host_round_with_rc.
  do 2 (split; [reflexivity|]).
  split;
    destruct ((Z.land (Z.shiftr (ppc_cur_instruction m) 21) 0x1F =? 0)
              || (2 <? Z.land (Z.shiftr (ppc_cur_instruction m) 21) 0x1F));
    reflexivity.
Qed.

(** Hence a move that changes RN on a machine in step leaves it out of
    step. *)
Lemma fpscr_move_changing_RN_desyncs h m :
  In h fpscr_move_handlers ->
  host_in_sync m ->
  rn_direction (fpscr (h m)) <> rn_direction (fpscr m) ->
  ~ host_in_sync (h m).
Proof.
  unfold host_in_sync. intros Hin Hsync Hchg Hafter.
  destruct (fpscr_moves_leave_host m) as (H1 & H2 & H3 & H4).
  simpl in Hin.
  destruct Hin as [<-|[<-|[<-|[<-|[]]]]]; apply Hchg; congruence.
Qed.

(** C7, at [mtfsf 0xFF, f2] with RN = 01 in f2, from a machine whose
    host rounds to nearest as its RN = 00 says: the instruction sets
    RN to 01 (toward zero) and retires with the host still rounding
    to nearest. *)
Theorem mtfsf_leaves_host_rounding_stale :
  host_in_sync Examples.at_mtfsf
  /\ Z.land (fpscr (ppc_mtfsf Examples.at_mtfsf)) RN_MASK = 1
  /\ rn_direction (fpscr (ppc_mtfsf Examples.at_mtfsf)) = FE_TOWARDZERO
  /\ host_round (ppc_mtfsf Examples.at_mtfsf) = FE_TONEAREST
  /\ ~ host_in_sync (ppc_mtfsf Examples.at_mtfsf).
Proof.
  unfold host_in_sync.
  split; [reflexivity|]. split; [reflexivity|].
  split; [reflexivity|]. split; [reflexivity|].
  vm_compute. discriminate.
Qed.

End Rounding.

(** ** MacIO interrupt registers *)

Section MacIOLayout.

Import MacIO Props.

Lemma levels2_not_at_0x18 : ~ documented_int_layout.
Proof.
  unfold documented_int_layout, MIO_INT_LEVELS2.
  intros (_ & _ & H & _). discriminate H.
Qed.

(** C8, as the header has it.  The word at 0x18 is the clear
    register of the second bank and levels2, read-only, follows it at
    0x1C; the first bank has the same shape one row further: events
    at 0x20, mask at 0x24, clear at 0x28, levels at 0x2C.  events2
    is at 0x10 and mask2 at 0x14. *)
Theorem int_register_layout :
  MIO_INT_EVENTS2 = 0x10 /\ MIO_INT_MASK2 = 0x14
  /\ MIO_INT_CLEAR2 = 0x18 /\ MIO_INT_LEVELS2 = 0x1C
  /\ MIO_INT_EVENTS1 = 0x20 /\ MIO_INT_MASK1 = 0x24
  /\ MIO_INT_CLEAR1 = 0x28 /\ MIO_INT_LEVELS1 = 0x2C
  /\ MIO_INT_LEVELS2 - MIO_INT_EVENTS2 = MIO_INT_LEVELS1 - MIO_INT_EVENTS1.
Proof. repeat split. Qed.

End MacIOLayout.

(** ** SCSI hard disk positioning *)

Section Scsi.

Import ScsiHd.

Lemma seekg_beg_0 s :
  fail s = false -> pos (seekg 0 beg s) = 0 /\ fail (seekg 0 beg s) = false.
Proof.
  destruct s as [sz p e f b]. unfold seekg, fail.
  cbn [failbit badbit pos file_size]. intros H. rewrite H.
  cbn [Z.ltb Z.compare failbit badbit pos]. split; [reflexivity|exact H].
Qed.

(** C9.  [seek] does not look at its argument: for every LBA it does
    what [rewind] does, a [seekg(0, beg)] on the image and nothing
    else, and on a stream that has not failed this leaves the
    position at byte 0. *)
Theorem seek_is_rewind (lba : Z) (d : ScsiHardDisk) :
  seek lba d = rewind d
  /\ hdd_img (seek lba d) = seekg 0 beg (hdd_img d)
  /\ img_size (seek lba d) = img_size d
  /\ img_buffer (seek lba d) = img_buffer d
  /\ (fail (hdd_img d) = false -> tellg (hdd_img (seek lba d)) = 0).
Proof.
  do 4 (split; [reflexivity|]).
  intros Hok. cbn [seek hdd_img]. unfold tellg.
  destruct (seekg_beg_0 _ Hok) as [Hp Hf]. rewrite Hf. exact Hp.
Qed.

(** [seek(2048)] on an open image positioned at 4096. *)
Lemma seek_is_rewind_witness :
  fail (hdd_img Examples.disk) = false
  /\ seek 2048 Examples.disk = rewind Examples.disk
  /\ tellg (hdd_img (seek 2048 Examples.disk)) = 0.
Proof.
  split; [reflexivity|].
  pose proof (seek_is_rewind 2048 Examples.disk) as (H1 & _ & _ & _ & H5).
  split; [exact H1 | apply H5; reflexivity].
Defined.

(** A read of the same block would start at [lba * sector_size]. *)
Example seek_ignores_offset :
  device_offset 2048 = 0x100000
  /\ pos (hdd_img (seek 2048 Examples.disk)) = 0.
Proof. split; reflexivity. Qed.

End Scsi.

(** ** FEX *)

Section Fex.

Context {host : HostFPU}.

Import FPSCR Props.

Lemma fex_summary_bits f :
  fex_summary f
  = pair_set f 29 || pair_set f 28 || pair_set f 27
    || pair_set f 26 || pair_set f 25.
Proof.
  unfold fex_summary, pair_set.
  change VX with (2 ^ 29); change VE with (2 ^ 7).
  change OX with (2 ^ 28); change OE with (2 ^ 6).
  change UX with (2 ^ 27); change UE with (2 ^ 5).
  change ZX with (2 ^ 26); change ZE with (2 ^ 4).
  change XX with (2 ^ 25); change XE with (2 ^ 3).
  rewrite !tst_pow2 by lia. reflexivity.
Qed.

(** Bit [i] of [fpscr & (fpscr << 22) & 0x3E000000]. *)
Lemma enabled_bits f i :
  0 <= i ->
  Z.testbit (Z.land (Z.land f (u32 (Z.shiftl f 22))) 0x3E000000) i
  = pair_set f i && ((25 <=? i) && (i <? 30)).
Proof.
  intros Hi. unfold pair_set.
  change 0x3E000000 with (Z.shiftl (Z.ones 5) 25).
  rewrite !Z.land_spec, testbit_u32, !Z.shiftl_spec by lia.
  rewrite Z.testbit_ones by lia.
  destruct (Z.leb_spec 25 i), (Z.ltb_spec i 30),
    (Z.leb_spec 0 (i - 25)), (Z.ltb_spec (i - 25) 5),
    (Z.ltb_spec i 32); try lia;
    rewrite ?andb_true_r, ?andb_false_r; reflexivity.
Qed.

Lemma enabled_zero f :
  (Z.land (Z.land f (u32 (Z.shiftl f 22))) 0x3E000000 =? 0)
  = negb (pair_set f 29 || pair_set f 28 || pair_set f 27
          || pair_set f 26 || pair_set f 25).
Proof.
  set (X := Z.land (Z.land f (u32 (Z.shiftl f 22))) 0x3E000000).
  assert (Hbit : forall i, 25 <= i < 30 -> pair_set f i = true -> X <> 0).
  { intros i Hi Hp HX.
    assert (Hb : Z.testbit X i = true).
    { unfold X. rewrite enabled_bits, Hp by lia.
      destruct (Z.leb_spec 25 i), (Z.ltb_spec i 30);
        first [reflexivity | lia]. }
    rewrite HX, Z.bits_0 in Hb. discriminate. }
  destruct (pair_set f 29) eqn:H29;
    [destruct (Z.eqb_spec X 0) as [E|_];
     [exfalso; exact (Hbit 29 ltac:(lia) H29 E) | reflexivity]|].
  destruct (pair_set f 28) eqn:H28;
    [destruct (Z.eqb_spec X 0) as [E|_];
     [exfalso; exact (Hbit 28 ltac:(lia) H28 E) | reflexivity]|].
  destruct (pair_set f 27) eqn:H27;
    [destruct (Z.eqb_spec X 0) as [E|_];
     [exfalso; exact (Hbit 27 ltac:(lia) H27 E) | reflexivity]|].
  destruct (pair_set f 26) eqn:H26;
    [destruct (Z.eqb_spec X 0) as [E|_];
     [exfalso; exact (Hbit 26 ltac:(lia) H26 E) | reflexivity]|].
  destruct (pair_set f 25) eqn:H25;
    [destruct (Z.eqb_spec X 0) as [E|_];
     [exfalso; exact (Hbit 25 ltac:(lia) H25 E) | reflexivity]|].
  cbn [orb negb]. apply Z.eqb_eq. apply Z.bits_inj'. intros i Hi.
  unfold X. rewrite enabled_bits, Z.bits_0 by lia.
  destruct (Z.leb_spec 25 i), (Z.ltb_spec i 30);
    rewrite ?andb_false_r; try reflexivity.
  assert (Hc : i = 25 \/ i = 26 \/ i = 27 \/ i = 28 \/ i = 29) by lia.
  destruct Hc as [->|[->|[->|[->| ->]]]];
    rewrite ?H25, ?H26, ?H27, ?H28, ?H29; reflexivity.
Qed.

(** [update_fex] writes bit 30 and no other. *)
Lemma update_fex_bit f r i :
  0 <= i -> (r = 0 \/ r = 1) ->
  Z.testbit (Z.lor (Z.land f (Z.lnot 0x40000000)) (Z.shiftl r 30)) i
  = if i =? 30 then (r =? 1) else Z.testbit f i.
Proof.
  intros Hi Hr. change 0x40000000 with (2 ^ 30).
  rewrite Z.lor_spec, Z.land_spec, Z.lnot_spec, Z.pow2_bits_eqb by lia.
  destruct Hr as [-> | ->].
  - rewrite Z.shiftl_0_l, Z.bits_0, orb_false_r.
    destruct (Z.eqb_spec 30 i) as [<-|Hne].
    + cbn. apply andb_false_r.
    + destruct (Z.eqb_spec i 30); [lia|]. cbn. apply andb_true_r.
  - change (Z.shiftl 1 30) with (2 ^ 30). rewrite Z.pow2_bits_eqb by lia.
    destruct (Z.eqb_spec 30 i) as [<-|Hne].
    + cbn. apply orb_true_r.
    + destruct (Z.eqb_spec i 30); [lia|]. cbn.
      rewrite andb_true_r, orb_false_r. reflexivity.
Qed.

Lemma nonzero_cases x : nonzero x = 0 \/ nonzero x = 1.
Proof. unfold nonzero. destruct (x =? 0); auto. Qed.

(** After [update_fex], FEX is the OR of the enabled summaries,
    whatever it was before. *)
Lemma update_fex_ok (m : Machine) : fex_ok (fpscr (update_fex m)).
Proof.
  unfold fex_ok, update_fex. cbn [fpscr set_fpscr].
  set (f := fpscr m).
  set (X := Z.land (Z.land f (u32 (Z.shiftl f 22))) 0x3E000000).
  rewrite fex_summary_bits. change FEX with (2 ^ 30).
  rewrite tst_pow2 by lia. unfold pair_set.
  rewrite !update_fex_bit by (lia || apply nonzero_cases).
  repeat match goal with
         | |- context [?a =? 30] =>
             let v := eval vm_compute in (a =? 30) in
             change (a =? 30) with v
         end.
  cbv iota. unfold nonzero, X. rewrite enabled_zero. unfold pair_set.
  destruct (Z.testbit f 29 && Z.testbit f (29 - 22)
            || Z.testbit f 28 && Z.testbit f (28 - 22)
            || Z.testbit f 27 && Z.testbit f (27 - 22)
            || Z.testbit f 26 && Z.testbit f (26 - 22)
            || Z.testbit f 25 && Z.testbit f (25 - 22)); reflexivity.
Qed.

(** [ppc_confirm_inf_nan] ends every case with [update_fex]. *)
Lemma ppc_confirm_inf_nan_fex_ok fpop r1 r2 m :
  fex_ok (fpscr (ppc_confirm_inf_nan fpop r1 r2 m)).
Proof.
  unfold ppc_confirm_inf_nan. destruct fpop; apply update_fex_ok.
Qed.

(** So do the square-root handlers, which call it on every operand. *)
Lemma sqrt_family_fex_ok m :
  fex_ok (fpscr (ppc_fsqrt m)) /\ fex_ok (fpscr (ppc_fsqrts m))
  /\ fex_ok (fpscr (ppc_frsqrte m)).
Proof.
  unfold ppc_fsqrt, ppc_fsqrts, ppc_frsqrte.
  rewrite !fpscr_with_rc. cbn [fpscr set_fpr].
  repeat split; apply ppc_confirm_inf_nan_fex_ok.
Qed.

(** fres never writes FEX, whichever bit it sets. *)
Lemma fres_keeps_FEX m :
  Z.land (fpscr (ppc_fres m)) FEX = Z.land (fpscr m) FEX.
Proof.
  unfold ppc_fres. rewrite fpscr_with_rc.
  set (m1 := set_fpr _ _ m).
  change (fpscr m) with (fpscr m1).
  destruct (feq (fpr m (reg_b m)) zero);
    [unfold or_fpscr; cbn [fpscr set_fpscr]; apply set_disjoint; reflexivity|].
  destruct (isnan (fpr m (reg_b m)));
    [unfold or_fpscr; cbn [fpscr set_fpscr]; apply set_disjoint; reflexivity|].
  destruct (isinf (fpr m (reg_b m))); [|reflexivity].
  unfold or_fpscr, and_fpscr. cbn [fpscr set_fpscr].
  rewrite set_disjoint by reflexivity. apply keep_superset. reflexivity.
Qed.

End Fex.

Section FexFres.

Import FPSCR Props SoftFPU.

(** C3, at [fres f1, f2] with f2 = 0.0 and only ZE set in the FPSCR.
    Before the instruction FEX is the OR of the enabled summaries
    (all clear).  fres sets ZX, whose enable is set, and retires with
    FEX still clear. *)
Theorem fres_leaves_FEX_stale :
  fex_ok (fpscr Examples.at_fres)
  /\ fpscr (ppc_fres Examples.at_fres) = Z.lor ZX ZE
  /\ fex_summary (fpscr (ppc_fres Examples.at_fres)) = true
  /\ tst (fpscr (ppc_fres Examples.at_fres)) FEX = false
  /\ ~ fex_ok (fpscr (ppc_fres Examples.at_fres)).
Proof.
  split; [reflexivity|].
  split; [vm_compute; reflexivity|].
  split; [vm_compute; reflexivity|].
  split; [vm_compute; reflexivity|].
  unfold fex_ok. vm_compute. discriminate.
Qed.

(** The same FPSCR after [update_fex] has FEX set. *)
Example update_fex_after_fres :
  fpscr (update_fex (ppc_fres Examples.at_fres))
  = Z.lor FEX (Z.lor ZX ZE).
Proof. vm_compute. reflexivity. Qed.

End FexFres.

(** ** FPCC *)

Section Fpcc.

Context {host : HostFPU}.

Import FPSCR Props.

(** [fpresult_update] only ever sets bits. *)
Lemma fpresult_update_or r m :
  fpscr (fpresult_update r m) = Z.lor (fpscr m) (fprf_of r).
Proof.
  unfold fpresult_update, fprf_of, fpcc_of, or_fpscr.
  destruct (isnan r); [reflexivity|].
  destruct (fgt r zero), (flt r zero), (isinf r);
    cbn [fpscr set_fpscr]; rewrite <- ?Z.lor_assoc, ?Z.lor_0_r;
    reflexivity.
Qed.

Lemma fprf_of_fpcc r : Z.land (fprf_of r) FPCC_MASK = fpcc_of r.
Proof.
  unfold fprf_of, fpcc_of.
  destruct (isnan r), (fgt r zero), (flt r zero), (isinf r);
    reflexivity.
Qed.

(** From clear FPCC bits the outcome is the one the result calls
    for. *)
Lemma fpresult_update_fresh r m :
  Z.land (fpscr m) FPCC_MASK = 0 ->
  Z.land (fpscr (fpresult_update r m)) FPCC_MASK = fpcc_of r.
Proof.
  intros H. rewrite fpresult_update_or, Z.land_lor_distr_l, H.
  apply fprf_of_fpcc.
Qed.

(** From any other state the old bits stay. *)
Lemma fpresult_update_keeps r m :
  subset (fpscr m) (fpscr (fpresult_update r m)).
Proof. unfold subset. rewrite fpresult_update_or. apply lor_absorbs. Qed.

Lemma subset_masked_trans K f g h :
  subset (Z.land f K) g -> subset (Z.land g K) h -> subset (Z.land f K) h.
Proof.
  unfold subset. intros H1 H2. apply Z.bits_inj'. intros i Hi.
  apply (f_equal (fun z => Z.testbit z i)) in H1, H2.
  rewrite !Z.land_spec in *.
  destruct (Z.testbit f i), (Z.testbit g i), (Z.testbit h i),
    (Z.testbit K i); simpl in *; congruence.
Qed.

Lemma subset_masked_of_eq K f g :
  Z.land g K = Z.land f K -> subset (Z.land f K) g.
Proof.
  unfold subset. intros H. apply Z.bits_inj'. intros i Hi.
  apply (f_equal (fun z => Z.testbit z i)) in H.
  rewrite !Z.land_spec in *.
  destruct (Z.testbit f i), (Z.testbit g i), (Z.testbit K i);
    simpl in *; congruence.
Qed.

Lemma subset_masked_of_subset K f g :
  subset f g -> subset (Z.land f K) g.
Proof.
  unfold subset. intros H. apply Z.bits_inj'. intros i Hi.
  apply (f_equal (fun z => Z.testbit z i)) in H.
  rewrite !Z.land_spec in *.
  destruct (Z.testbit f i), (Z.testbit g i), (Z.testbit K i);
    simpl in *; congruence.
Qed.

(** [update_fex] and [ppc_confirm_inf_nan] do not touch the FPCC. *)
Lemma update_fex_fpcc m :
  Z.land (fpscr (update_fex m)) FPCC_MASK = Z.land (fpscr m) FPCC_MASK.
Proof.
  unfold update_fex. cbn [fpscr set_fpscr].
  rewrite set_disjoint.
  - apply clear_disjoint. reflexivity.
  - destruct (nonzero_cases
                (Z.land (Z.land (fpscr m) (u32 (Z.shiftl (fpscr m) 22)))
                        0x3E000000)) as [-> | ->]; reflexivity.
Qed.

Lemma or_fpscr_fpcc bits m :
  Z.land bits FPCC_MASK = 0 ->
  Z.land (fpscr (or_fpscr bits m)) FPCC_MASK = Z.land (fpscr m) FPCC_MASK.
Proof. intros H. unfold or_fpscr. cbn [fpscr set_fpscr]. apply set_disjoint, H. Qed.

Lemma ppc_confirm_inf_nan_fpcc fpop r1 r2 m :
  Z.land (fpscr (ppc_confirm_inf_nan fpop r1 r2 m)) FPCC_MASK
  = Z.land (fpscr m) FPCC_MASK.
Proof.
  assert (Hand : Z.land (fpscr (and_fpscr 0x7fbfffff m)) FPCC_MASK
                 = Z.land (fpscr m) FPCC_MASK).
  { unfold and_fpscr. cbn [fpscr set_fpscr]. apply keep_superset. reflexivity. }
  unfold ppc_confirm_inf_nan.
  destruct fpop; rewrite update_fex_fpcc;
    repeat match goal with
           | |- context [if ?c then _ else _] => destruct c
           end;
    rewrite ?or_fpscr_fpcc by reflexivity; exact Hand.
Qed.

Lemma confirm_if_nan2_fpcc fpop rx ry m :
  Z.land (fpscr (confirm_if_nan2 fpop rx ry m)) FPCC_MASK
  = Z.land (fpscr m) FPCC_MASK.
Proof.
  unfold confirm_if_nan2.
  destruct (isnan (fpr m rx) || isnan (fpr m ry));
    [apply ppc_confirm_inf_nan_fpcc | reflexivity].
Qed.

Lemma confirm_if_nan1_fpcc fpop m :
  Z.land (fpscr (confirm_if_nan1 fpop m)) FPCC_MASK
  = Z.land (fpscr m) FPCC_MASK.
Proof.
  unfold confirm_if_nan1.
  destruct (isnan (fpr m (reg_b m)));
    [apply ppc_confirm_inf_nan_fpcc | reflexivity].
Qed.

Lemma store_and_update_keeps r m :
  subset (Z.land (fpscr m) FPCC_MASK) (fpscr (store_and_update r m)).
Proof.
  unfold store_and_update. rewrite fpscr_with_rc.
  apply subset_masked_of_subset.
  apply (fpresult_update_keeps r (set_fpr (reg_d m) r m)).
Qed.

Lemma funan_then_confirm_keeps fpop r1 r2 m :
  subset (Z.land (fpscr m) FPCC_MASK)
         (fpscr (ppc_confirm_inf_nan fpop r1 r2 (or_fpscr FPCC_FUNAN m))).
Proof.
  apply subset_masked_trans with (g := fpscr (or_fpscr FPCC_FUNAN m)).
  - apply subset_masked_of_subset. unfold subset, or_fpscr.
    cbn [fpscr set_fpscr]. apply lor_absorbs.
  - apply subset_masked_of_eq. apply ppc_confirm_inf_nan_fpcc.
Qed.

(** No arithmetic handler clears an FPCC bit: whatever condition a
    previous instruction left is still set when the handler
    retires. *)
Lemma arithmetic_keeps_old_fpcc h m :
  In h arithmetic_handlers ->
  subset (Z.land (fpscr m) FPCC_MASK) (fpscr (h m)).
Proof.
  unfold arithmetic_handlers. intros Hin. simpl in Hin.
  repeat (destruct Hin as [<-|Hin];
          [ cbv beta delta [ppc_fadd ppc_fsub ppc_fdiv ppc_fmul
                            ppc_fmadd ppc_fmsub ppc_fnmadd ppc_fnmsub
                            ppc_fadds ppc_fsubs ppc_fdivs ppc_fmuls
                            ppc_fmadds ppc_fmsubs ppc_fnmadds ppc_fnmsubs];
            cbv zeta;
            match goal with
            | |- subset _ (fpscr (store_and_update ?r ?m')) =>
                apply subset_masked_trans with (g := fpscr m');
                [ | apply store_and_update_keeps ]
            end;
            first
              [ destruct (isnan (fpr m (reg_a m)) || isnan (fpr m (reg_b m)));
                [ apply funan_then_confirm_keeps
                | apply subset_masked_of_eq; reflexivity ]
              | apply subset_masked_of_eq;
                rewrite ?confirm_if_nan1_fpcc, ?confirm_if_nan2_fpcc;
                reflexivity ]
          | ]).
  contradiction.
Qed.

End Fpcc.

Section FpccExample.

Import FPSCR Props SoftFPU.

(** C4, at two fadd in a row from a clear FPSCR: -1.0 + -1.0, whose
    result -2.0 sets FL, then 1.0 + 1.0.  The second result is 2.0,
    greater than zero, and the FPCC it retires with has FL and FG
    both set, not FG alone. *)
Theorem fadd_accumulates_fpcc :
  fpscr Examples.at_fadd_neg = 0
  /\ fpscr (ppc_fadd Examples.at_fadd_neg) = FPCC_NEG
  /\ fpr Examples.after_two_fadd 4 = 0x4000000000000000
  /\ fpcc_of (fpr Examples.after_two_fadd 4) = FPCC_POS
  /\ Z.land (fpscr Examples.after_two_fadd) FPCC_MASK
     = Z.lor FPCC_NEG FPCC_POS
  /\ Z.land (fpscr Examples.after_two_fadd) FPCC_MASK
     <> fpcc_of (fpr Examples.after_two_fadd 4).
Proof.
  split; [reflexivity|].
  split; [vm_compute; reflexivity|].
  split; [vm_compute; reflexivity|].
  split; [vm_compute; reflexivity|].
  split; [vm_compute; reflexivity|].
  vm_compute. discriminate.
Qed.

End FpccExample.

(** ** Conversion to integer *)

Section RoundToInt.

Context {host : HostFPU}.

Import FPSCR Props.

Lemma tst_lor_r a b K : tst b K = true -> tst (Z.lor a b) K = true.
Proof.
  unfold tst. rewrite Z.land_lor_distr_l.
  destruct (Z.eqb_spec (Z.land b K) 0) as [|Hb]; [discriminate|].
  intros _.
  destruct (Z.eqb_spec (Z.lor (Z.land a K) (Z.land b K)) 0) as [E|];
    [|reflexivity].
  apply Z.lor_eq_0_iff in E. tauto.
Qed.

Lemma tst_lor_l a b K : tst a K = true -> tst (Z.lor a b) K = true.
Proof. rewrite Z.lor_comm. apply tst_lor_r. Qed.

Lemma tst_eq a b K : Z.land a K = Z.land b K -> tst a K = tst b K.
Proof. unfold tst. intros ->. reflexivity. Qed.

Lemma invalid_cvi_frame f K :
  Z.land (Z.lor FR FI) K = 0 -> Z.land (Z.lor VXCVI VX) K = 0 ->
  Z.land (invalid_cvi f) K = Z.land f K.
Proof.
  intros H1 H2. unfold invalid_cvi.
  rewrite set_disjoint by exact H2. apply clear_disjoint, H1.
Qed.

Lemma invalid_fpscr_frame b f K :
  Z.land (Z.lor FR FI) K = 0 -> Z.land (Z.lor VXCVI VX) K = 0 ->
  Z.land VXSNAN K = 0 ->
  Z.land (invalid_fpscr b f) K = Z.land f K.
Proof.
  intros H1 H2 H3. unfold invalid_fpscr.
  destruct (issnan b); rewrite ?set_disjoint by exact H3;
    apply invalid_cvi_frame; assumption.
Qed.

Lemma invalid_fpscr_sets b f K :
  tst (Z.lor VXCVI VX) K = true -> tst (invalid_fpscr b f) K = true.
Proof.
  intros H. unfold invalid_fpscr, invalid_cvi.
  destruct (issnan b); [apply tst_lor_l|]; apply tst_lor_r, H.
Qed.

(** The invalid branches, with the exception disabled, as one
    equation. *)
Lemma round_to_int_invalid mode m :
  tst (fpscr m) VE = false ->
  isnan (fpr m (reg_b m))
  || (fgt (fpr m (reg_b m)) int32_max
      || flt (fpr m (reg_b m)) int32_min) = true ->
  round_to_int mode m
  = Ret (with_rc
           (set_fpr (reg_d m) (saturated (fpr m (reg_b m)))
              (set_fpscr (invalid_fpscr (fpr m (reg_b m)) (fpscr m)) m))).
Proof.
  destruct m as [fp gp fs c instr rc ea hr].
  cbv beta iota zeta delta
      [round_to_int saturated and_fpscr or_fpscr reg_b reg_d
       fpr gpr fpscr cr ppc_cur_instruction rc_flag ppc_effective_address
       host_round set_fpr set_fpscr invalid_fpscr issnan].
  set (b := fp (Z.land (Z.shiftr instr 11) 31)).
  fold (invalid_cvi fs).
  intros HVE Hbad.
  assert (HVE' : tst (invalid_cvi fs) VE = false).
  { rewrite <- HVE. apply tst_eq, invalid_cvi_frame; reflexivity. }
  assert (HVE'' : tst (Z.lor (invalid_cvi fs) VXSNAN) VE = false).
  { rewrite <- HVE'. apply tst_eq, set_disjoint. reflexivity. }
  destruct (isnan b) eqn:Hnan.
  - destruct (negb (tst b 0x0008000000000000)); cbn [andb];
      rewrite ?HVE'', ?HVE'; reflexivity.
  - cbn [orb] in Hbad. rewrite Hbad, HVE'. cbn [andb].
    destruct (fge b zero); reflexivity.
Qed.

(** With the invalid-operation exception disabled, a NaN operand or
    one beyond the [int32_t] range gives the sentinel, with
    [0xFFF80000] in the high word, and sets VX and VXCVI; FX is not
    written on this path. *)
Lemma round_to_int_saturates mode m :
  tst (fpscr m) VE = false ->
  isnan (fpr m (reg_b m))
  || (fgt (fpr m (reg_b m)) int32_max
      || flt (fpr m (reg_b m)) int32_min) = true ->
  exists m',
    round_to_int mode m = Ret m'
    /\ fpr m' = upd (fpr m) (reg_d m) (saturated (fpr m (reg_b m)))
    /\ tst (fpscr m') VX = true
    /\ tst (fpscr m') VXCVI = true
    /\ Z.land (fpscr m') FX = Z.land (fpscr m) FX.
Proof.
  intros HVE Hbad. eexists.
  split; [apply round_to_int_invalid; assumption|].
  rewrite fpr_with_rc, fpscr_with_rc. cbn [fpr fpscr set_fpr set_fpscr].
  split; [reflexivity|].
  split; [apply invalid_fpscr_sets; reflexivity|].
  split; [apply invalid_fpscr_sets; reflexivity|].
  apply invalid_fpscr_frame; reflexivity.
Qed.

End RoundToInt.

Section RoundToIntExample.

Import FPSCR Props SoftFPU.

(** C2, at [fctiwz f1, f2] with f2 = 3.0e10 and a clear FPSCR, the
    invalid-operation exception disabled.  The handler retires with
    0x7FFFFFFF in the low word of f1 and 0xFFF80000 in the high one,
    and with VX and VXCVI set; FX is clear. *)
Theorem fctiwz_overflow_leaves_FX_clear :
  fgt Examples.three_e10 int32_max = true
  /\ option_map (fun m' => (fpr m' 1, fpscr m'))
                (returned (ppc_fctiwz Examples.at_fctiwz))
     = Some (0xFFF800007FFFFFFF, Z.lor VX VXCVI)
  /\ option_map (fun m' => tst (fpscr m') FX)
                (returned (ppc_fctiwz Examples.at_fctiwz))
     = Some false.
Proof. repeat split; vm_compute; reflexivity. Qed.

End RoundToIntExample.

(** ** Ordered compare *)

Section Compare.

Import FPSCR Props.

(** Writing [S] into the field [M] of [f]. *)
Lemma field_write f M S :
  Z.land S M = S -> Z.land (Z.lor (Z.land f (Z.lnot M)) S) M = S.
Proof.
  intros H. apply Z.bits_inj'. intros i Hi.
  apply (f_equal (fun z => Z.testbit z i)) in H.
  rewrite !Z.land_spec in *. rewrite Z.lor_spec, Z.land_spec, Z.lnot_spec by lia.
  destruct (Z.testbit f i), (Z.testbit M i), (Z.testbit S i);
    simpl in *; congruence.
Qed.

Lemma field_write_others f M S :
  Z.land S M = S ->
  Z.land (Z.lor (Z.land f (Z.lnot M)) S) (Z.lnot M) = Z.land f (Z.lnot M).
Proof.
  intros H. apply Z.bits_inj'. intros i Hi.
  apply (f_equal (fun z => Z.testbit z i)) in H.
  rewrite !Z.land_spec in *. rewrite Z.lor_spec, Z.land_spec, Z.lnot_spec by lia.
  destruct (Z.testbit f i), (Z.testbit M i), (Z.testbit S i);
    simpl in *; congruence.
Qed.





Example fcmpo_qnan_state :
  fpscr (ppc_fcmpo Examples.at_fcmpo) = FPCC_FUNAN
  /\ cr (ppc_fcmpo Examples.at_fcmpo) = 0x01000000.
Proof. split; vm_compute; reflexivity. Qed.

(** fcmpo and fcmpu are the same function of the machine. *)
Lemma fcmpo_is_fcmpu m : ppc_fcmpo m = ppc_fcmpu m.
Proof. reflexivity. Qed.

End Compare.


(** * Further properties of the handlers *)

(** ** Words that agree outside a mask *)

Section Outside.

Import Props2.

Lemma same_outside_refl W a : same_outside W a a.
Proof. intros i _ _. reflexivity. Qed.

Lemma same_outside_trans W a b c :
  same_outside W a b -> same_outside W b c -> same_outside W a c.
Proof. intros H1 H2 i Hi HW. rewrite (H1 i Hi HW). exact (H2 i Hi HW). Qed.

Lemma same_outside_weaken V W a b :
  Z.land V W = V -> same_outside V a b -> same_outside W a b.
Proof.
  intros HV H i Hi HW. apply H; [exact Hi|].
  apply (f_equal (fun z => Z.testbit z i)) in HV.
  rewrite Z.land_spec, HW, andb_false_r in HV. symmetry. exact HV.
Qed.

(** [f & mask] when every bit of the word cleared by [mask] lies in
    [W]. *)
Lemma same_outside_and W f mask :
  Z.land (Z.lnot (Z.lor mask W)) (Z.ones 32) = 0 ->
  same_outside W (Z.land f mask) f.
Proof.
  intros H i Hi HW.
  apply (f_equal (fun z => Z.testbit z i)) in H.
  rewrite Z.land_spec, Z.lnot_spec, Z.lor_spec, Z.testbit_ones_nonneg,
    Z.bits_0, HW in H by lia.
  rewrite Z.land_spec.
  destruct (Z.ltb_spec i 32); [|lia].
  destruct (Z.testbit f i), (Z.testbit mask i); simpl in *; congruence.
Qed.

(** [f | s] when every bit of [s] lies in [W]. *)
Lemma same_outside_or W f s :
  Z.land s W = s -> same_outside W (Z.lor f s) f.
Proof.
  intros H i Hi HW.
  apply (f_equal (fun z => Z.testbit z i)) in H.
  rewrite Z.land_spec, HW, andb_false_r in H.
  rewrite Z.lor_spec, <- H. apply orb_false_r.
Qed.

(** Agreement outside [W] is agreement on any mask of the word
    disjoint from [W]. *)
Lemma same_outside_on W K a b :
  Z.land K W = 0 -> Z.land K (Z.ones 32) = K ->
  same_outside W a b -> Z.land a K = Z.land b K.
Proof.
  intros HK H32 H. apply Z.bits_inj'. intros i Hi.
  apply (f_equal (fun z => Z.testbit z i)) in HK, H32.
  rewrite Z.bits_0, Z.land_spec in HK.
  rewrite Z.land_spec, Z.testbit_ones_nonneg in H32 by lia.
  rewrite !Z.land_spec.
  destruct (Z.testbit K i) eqn:HKi; [|rewrite !andb_false_r; reflexivity].
  rewrite !andb_true_r. apply H.
  - destruct (Z.ltb_spec i 32); [lia|discriminate].
  - destruct (Z.testbit W i); [discriminate|reflexivity].
Qed.

Lemma tst_same_outside W K a b :
  Z.land K W = 0 -> Z.land K (Z.ones 32) = K ->
  same_outside W a b -> tst a K = tst b K.
Proof.
  intros HK H32 H. apply tst_eq. exact (same_outside_on W K a b HK H32 H).
Qed.

Lemma tst_and_clear f mask K :
  Z.land mask K = 0 -> tst (Z.land f mask) K = false.
Proof.
  intros H. unfold tst. rewrite <- Z.land_assoc, H, Z.land_0_r. reflexivity.
Qed.

End Outside.

(** ** FEX and the invalid-operation checks *)

Section FexMore.

Context {host : HostFPU}.

Import FPSCR Props Props2.

Lemma update_fex_outside m :
  same_outside FEX (fpscr (update_fex m)) (fpscr m).
Proof.
  unfold update_fex. cbn [fpscr set_fpscr]. intros i Hi HW.
  rewrite update_fex_bit by (lia || apply nonzero_cases).
  destruct (Z.eqb_spec i 30) as [->|Hne]; [discriminate HW|reflexivity].
Qed.

(** X1.  [update_fex] makes FEX the OR of the five exception summaries
    gated by their enables, whatever the FPSCR held, and changes no
    other bit. *)
Theorem update_fex_recomputes_FEX (m : Machine) :
  fex_ok (fpscr (update_fex m))
  /\ same_outside FEX (fpscr (update_fex m)) (fpscr m)
  /\ only_fpscr m (update_fex m).
Proof.
  split; [apply update_fex_ok|].
  split; [apply update_fex_outside|].
  repeat split.
Qed.

Lemma confirm_only_fpscr fpop r1 r2 m :
  only_fpscr m (ppc_confirm_inf_nan fpop r1 r2 m).
Proof.
  unfold ppc_confirm_inf_nan.
  destruct fpop;
    repeat match goal with
           | |- context [if ?c then _ else _] => destruct c
           end;
    repeat split.
Qed.

Lemma confirm_outside fpop r1 r2 m :
  same_outside confirm_writes
               (fpscr (ppc_confirm_inf_nan fpop r1 r2 m)) (fpscr m).
Proof.
  assert (Hand : same_outside confirm_writes
                   (fpscr (and_fpscr 0x7fbfffff m)) (fpscr m)).
  { unfold and_fpscr. cbn [fpscr set_fpscr].
    apply same_outside_and. reflexivity. }
  assert (Hor : forall s m', Z.land s confirm_writes = s ->
                  same_outside confirm_writes (fpscr m') (fpscr m) ->
                  same_outside confirm_writes (fpscr (or_fpscr s m')) (fpscr m)).
  { intros s m' Hs Hm'. unfold or_fpscr. cbn [fpscr set_fpscr].
    eapply same_outside_trans; [apply same_outside_or, Hs | exact Hm']. }
  assert (Hfex : forall m', same_outside confirm_writes (fpscr m') (fpscr m) ->
                   same_outside confirm_writes (fpscr (update_fex m')) (fpscr m)).
  { intros m' Hm'. eapply same_outside_trans; [|exact Hm'].
    apply (same_outside_weaken FEX); [reflexivity|apply update_fex_outside]. }
  unfold ppc_confirm_inf_nan.
  destruct fpop; apply Hfex;
    repeat match goal with
           | |- context [if ?c then _ else _] => destruct c
           end;
    repeat (apply Hor; [reflexivity|]); exact Hand.
Qed.

(** X2.  [ppc_confirm_inf_nan], for each of its five operations and
    any operands, leaves FEX equal to the OR of the enabled summaries,
    writes no FPSCR bit other than FX, FEX, VXIDI, VXZDZ, VXISI and
    VXSQRT (so not VX, the FPCC, the enables or RN), and writes nothing
    but the FPSCR. *)
Theorem ppc_confirm_inf_nan_effect fpop r1 r2 (m : Machine) :
  fex_ok (fpscr (ppc_confirm_inf_nan fpop r1 r2 m))
  /\ same_outside confirm_writes
                  (fpscr (ppc_confirm_inf_nan fpop r1 r2 m)) (fpscr m)
  /\ only_fpscr m (ppc_confirm_inf_nan fpop r1 r2 m).
Proof.
  split; [apply ppc_confirm_inf_nan_fex_ok|].
  split; [apply confirm_outside|apply confirm_only_fpscr].
Qed.

Lemma tst_update_fex_FX m : tst (fpscr (update_fex m)) FX = tst (fpscr m) FX.
Proof.
  apply (tst_same_outside FEX); [reflexivity|reflexivity|].
  apply update_fex_outside.
Qed.

(** X3.  [ppc_confirm_inf_nan] first clears FX: afterwards FX is set
    exactly when this call met its invalid condition (both operands
    infinite or both equal to [FP_ZERO] for DIV, both infinite or both
    NaN for SUB, both NaN for ADD and MUL, a NaN or -1.0 second operand
    for SQRT), whatever FX was before. *)
Theorem ppc_confirm_inf_nan_FX fpop r1 r2 (m : Machine) :
  tst (fpscr (ppc_confirm_inf_nan fpop r1 r2 m)) FX
  = fx_condition fpop (fpr m r1) (fpr m r2).
Proof.
  assert (Hclr : tst (fpscr (and_fpscr 0x7fbfffff m)) FX = false).
  { unfold and_fpscr. cbn [fpscr set_fpscr]. apply tst_and_clear. reflexivity. }
  assert (Hset : forall s m', tst s FX = true -> tst (fpscr (or_fpscr s m')) FX = true).
  { intros s m' Hs. unfold or_fpscr. cbn [fpscr set_fpscr]. apply tst_lor_r, Hs. }
  unfold ppc_confirm_inf_nan, fx_condition.
  cbn [fpr and_fpscr set_fpscr].
  destruct fpop; rewrite tst_update_fex_FX;
    repeat match goal with
           | |- context [if ?c then _ else _] => destruct c; cbn [orb andb]
           end;
    first [ exact Hclr
          | apply Hset; reflexivity
          | unfold or_fpscr; cbn [fpscr set_fpscr]; apply tst_lor_l;
            apply Hset; reflexivity ].
Qed.

End FexMore.


(** ** Rounding mode, result flags and the arithmetic handlers *)

Section ArithMore.

Context {host : HostFPU}.

Import FPSCR Props Props2.

(** X4.  [update_fpscr] installs the new value, calls [fesetround]
    only when the RN field changes, and then with the direction the new
    RN names; a machine whose host was in step with RN stays so. *)
Theorem update_fpscr_installs new_fpscr (m : Machine) :
  fpscr (update_fpscr new_fpscr m) = new_fpscr
  /\ host_round (update_fpscr new_fpscr m)
     = (if Z.land new_fpscr RN_MASK =? Z.land (fpscr m) RN_MASK
        then host_round m else rn_direction new_fpscr)
  /\ (host_in_sync m -> host_in_sync (update_fpscr new_fpscr m)).
Proof.
  unfold host_in_sync, update_fpscr.
  destruct (Z.eqb_spec (Z.land new_fpscr RN_MASK) (Z.land (fpscr m) RN_MASK))
    as [Heq|Hne]; cbn [negb]; cbn [host_round fpscr set_fpscr].
  - split; [reflexivity|]. split; [reflexivity|].
    intros ->. symmetry. apply rn_direction_eq. exact Heq.
  - rewrite set_host_rounding_mode_direction, rn_direction_masked.
    repeat split.
Qed.

Lemma fprf_of_in_mask r : Z.land (fprf_of r) FPRF_MASK = fprf_of r.
Proof.
  unfold fprf_of, fpcc_of.
  destruct (isnan r), (fgt r zero), (flt r zero), (isinf r); reflexivity.
Qed.

Lemma fpresult_update_writes_fprf_aux r (m : Machine) :
  same_outside FPRF_MASK (fpscr (fpresult_update r m)) (fpscr m)
  /\ only_fpscr m (fpresult_update r m).
Proof.
  split; [rewrite fpresult_update_or; apply same_outside_or, fprf_of_in_mask|].
  unfold fpresult_update.
  repeat match goal with
         | |- context [if ?c then _ else _] => destruct c
         end; repeat split.
Qed.

(** X5.  [fpresult_update] writes no FPSCR bit outside FPRF (the class
    bit and the FPCC) and nothing but the FPSCR; when FPRF is clear
    beforehand it becomes the pattern of the result: C and FU for a
    NaN, otherwise FG, FL or FE by sign, with FU added for an
    infinity. *)
Theorem fpresult_update_writes_fprf r (m : Machine) :
  same_outside FPRF_MASK (fpscr (fpresult_update r m)) (fpscr m)
  /\ only_fpscr m (fpresult_update r m)
  /\ (Z.land (fpscr m) FPRF_MASK = 0 ->
      Z.land (fpscr (fpresult_update r m)) FPRF_MASK = fprf_of r).
Proof.
  destruct (fpresult_update_writes_fprf_aux r m) as [H1 H2].
  split; [exact H1|]. split; [exact H2|].
  intros H. rewrite fpresult_update_or, Z.land_lor_distr_l, H.
  apply fprf_of_in_mask.
Qed.









Ltac arith_start Hin :=
  unfold arithmetic_handlers in Hin; simpl in Hin;
  repeat (destruct Hin as [<-|Hin]; [|]); [..|contradiction];
  cbv beta delta [ppc_fadd ppc_fsub ppc_fdiv ppc_fmul
                  ppc_fmadd ppc_fmsub ppc_fnmadd ppc_fnmsub
                  ppc_fadds ppc_fsubs ppc_fdivs ppc_fmuls
                  ppc_fmadds ppc_fmsubs ppc_fnmadds ppc_fnmsubs];
  cbv zeta.




Lemma sub_disjoint K R W :
  Z.land K R = K -> Z.land R W = 0 -> Z.land K W = 0.
Proof.
  intros HK HR. rewrite <- HK, <- Z.land_assoc, HR. apply Z.land_0_r.
Qed.

(** The invariant reads only the bits of [fex_reads]. *)
Lemma fex_ok_same_outside W f f' :
  Z.land fex_reads W = 0 -> same_outside W f' f -> fex_ok f -> fex_ok f'.
Proof.
  intros HW Hsame. unfold fex_ok, fex_summary.
  assert (Ht : forall K, Z.land K fex_reads = K -> Z.land K (Z.ones 32) = K ->
                         tst f' K = tst f K).
  { intros K HK H32. apply (tst_same_outside W); [|exact H32|exact Hsame].
    exact (sub_disjoint K fex_reads W HK HW). }
  rewrite !Ht by reflexivity. exact (fun H => H).
Qed.

Lemma store_and_update_fex_ok r m :
  fex_ok (fpscr m) -> fex_ok (fpscr (store_and_update r m)).
Proof.
  intros H. unfold store_and_update. rewrite fpscr_with_rc.
  apply (fex_ok_same_outside FPRF_MASK (fpscr m)); [reflexivity| |exact H].
  exact (proj1 (fpresult_update_writes_fprf_aux r (set_fpr (reg_d m) r m))).
Qed.

Lemma confirm_if_nan2_fex_ok fpop rx ry m :
  fex_ok (fpscr m) -> fex_ok (fpscr (confirm_if_nan2 fpop rx ry m)).
Proof.
  intros H. unfold confirm_if_nan2.
  destruct (isnan (fpr m rx) || isnan (fpr m ry));
    [apply ppc_confirm_inf_nan_fex_ok|exact H].
Qed.

Lemma confirm_if_nan1_fex_ok fpop m :
  fex_ok (fpscr m) -> fex_ok (fpscr (confirm_if_nan1 fpop m)).
Proof.
  intros H. unfold confirm_if_nan1.
  destruct (isnan (fpr m (reg_b m)));
    [apply ppc_confirm_inf_nan_fex_ok|exact H].
Qed.

(** X7.  The arithmetic handlers keep the FEX invariant: if FEX is the
    OR of the enabled summaries before one of the sixteen handlers
    runs, it still is when the handler retires. *)
Theorem arithmetic_keeps_fex_ok h (m : Machine) :
  In h arithmetic_handlers ->
  fex_ok (fpscr m) -> fex_ok (fpscr (h m)).
Proof.
  intros Hin Hok.
  arith_start Hin;
    apply store_and_update_fex_ok;
    first [ destruct (isnan (fpr m (reg_a m)) || isnan (fpr m (reg_b m)));
            [apply ppc_confirm_inf_nan_fex_ok|exact Hok]
          | apply confirm_if_nan1_fex_ok, confirm_if_nan2_fex_ok, Hok
          | apply confirm_if_nan2_fex_ok, Hok ].
Qed.

(** Bits of the CR after [ppc_update_cr1]. *)
Lemma update_cr1_bit m i :
  0 <= i ->
  Z.testbit (cr (ppc_update_cr1 m)) i
  = if (24 <=? i) && (i <? 28) then Z.testbit (fpscr m) (i + 4)
    else Z.testbit (cr m) i.
Proof.
  intros Hi. unfold ppc_update_cr1. cbn [cr set_cr].
  unfold CR.CR1_field. change 0x0F000000 with (Z.shiftl (Z.ones 4) 24).
  rewrite Z.lor_spec, !Z.land_spec, Z.lnot_spec, Z.shiftr_spec,
    Z.shiftl_spec, Z.testbit_ones by lia.
  destruct (Z.leb_spec 24 i), (Z.ltb_spec i 28),
    (Z.leb_spec 0 (i - 24)), (Z.ltb_spec (i - 24) 4); try lia;
    cbn [andb negb]; rewrite ?andb_true_r, ?andb_false_r, ?orb_false_r;
    reflexivity.
Qed.

(** X8.  [ppc_update_cr1] copies FPSCR[FX, FEX, VX, OX] into the four
    bits of CR1, in that order from the most significant, keeps every
    other CR bit and does not touch the FPSCR. *)
Theorem ppc_update_cr1_copies (m : Machine) :
  Z.testbit (cr (ppc_update_cr1 m)) 27 = tst (fpscr m) FX
  /\ Z.testbit (cr (ppc_update_cr1 m)) 26 = tst (fpscr m) FEX
  /\ Z.testbit (cr (ppc_update_cr1 m)) 25 = tst (fpscr m) VX
  /\ Z.testbit (cr (ppc_update_cr1 m)) 24 = tst (fpscr m) OX
  /\ same_outside CR.CR1_field (cr (ppc_update_cr1 m)) (cr m)
  /\ fpscr (ppc_update_cr1 m) = fpscr m.
Proof.
  change FX with (2 ^ 31); change FEX with (2 ^ 30).
  change VX with (2 ^ 29); change OX with (2 ^ 28).
  rewrite !tst_pow2, !update_cr1_bit by lia.
  do 4 (split; [reflexivity|]). split; [|reflexivity].
  intros i Hi HW. rewrite update_cr1_bit by lia.
  unfold CR.CR1_field in HW.
  change 0x0F000000 with (Z.shiftl (Z.ones 4) 24) in HW.
  rewrite Z.shiftl_spec, Z.testbit_ones in HW by lia.
  destruct (Z.leb_spec 24 i), (Z.ltb_spec i 28),
    (Z.leb_spec 0 (i - 24)), (Z.ltb_spec (i - 24) 4); try lia;
    first [reflexivity|discriminate HW].
Qed.

End ArithMore.

Section ArithMoreExamples.

Import FPSCR Props Props2 SoftFPU.

(** Writing RN = 10 on the reset machine. *)
Lemma update_fpscr_installs_witness :
  host_in_sync Examples.reset
  /\ host_in_sync (update_fpscr 2 Examples.reset)
  /\ host_round (update_fpscr 2 Examples.reset) = FE_UPWARD.
Proof.
  split; [reflexivity|].
  destruct (update_fpscr_installs 2 Examples.reset) as (_ & H2 & H3).
  split; [apply H3; reflexivity | rewrite H2; reflexivity].
Defined.

(** The result 1.0 on a clear FPSCR. *)
Lemma fpresult_update_writes_fprf_witness :
  Z.land (fpscr Examples.reset) FPRF_MASK = 0
  /\ Z.land (fpscr (fpresult_update one Examples.reset)) FPRF_MASK
     = FPCC_POS.
Proof.
  split; [reflexivity|].
  destruct (fpresult_update_writes_fprf one Examples.reset) as (_ & _ & H).
  rewrite H by reflexivity. vm_compute. reflexivity.
Defined.


Lemma arithmetic_keeps_fex_ok_witness :
  In ppc_fadd arithmetic_handlers
  /\ fex_ok (fpscr Examples.at_fadd_neg)
  /\ fex_ok (fpscr (ppc_fadd Examples.at_fadd_neg)).
Proof.
  split; [simpl; auto|]. split; [reflexivity|].
  apply (arithmetic_keeps_fex_ok ppc_fadd Examples.at_fadd_neg);
    [simpl; auto | reflexivity].
Defined.

End ArithMoreExamples.


(** ** Moves to and from the FPSCR, bit by bit *)

Section MovesMore.

Import FPSCR Props Props2.

Lemma testbit_nibble d i :
  0 <= d -> 0 <= i ->
  Z.testbit (Z.shiftr 0xF0000000 d) i = (28 <=? i + d) && (i + d <? 32).
Proof.
  intros Hd Hi. change 0xF0000000 with (Z.shiftl (Z.ones 4) 28).
  rewrite Z.shiftr_spec, Z.shiftl_spec, Z.testbit_ones by lia.
  destruct (Z.leb_spec 28 (i + d)), (Z.ltb_spec (i + d) 32),
    (Z.leb_spec 0 (i + d - 28)), (Z.ltb_spec (i + d - 28) 4);
    try lia; reflexivity.
Qed.

Lemma testbit_FEX_VX i :
  0 <= i -> Z.testbit (Z.lor FEX VX) i = is_FEX_or_VX i.
Proof.
  intros Hi. change FEX with (2 ^ 30). change VX with (2 ^ 29).
  rewrite Z.lor_spec, !Z.pow2_bits_eqb by lia. unfold is_FEX_or_VX.
  rewrite (Z.eqb_sym 30 i), (Z.eqb_sym 29 i). apply orb_comm.
Qed.

(** Bit [i] of [(f & ~mask) | (b & mask)] stored into a [uint32_t]. *)
Lemma testbit_merge f b mask i :
  0 <= i < 32 ->
  Z.testbit (u32 (Z.lor (Z.land f (Z.lnot mask)) (Z.land b mask))) i
  = if Z.testbit mask i then Z.testbit b i else Z.testbit f i.
Proof.
  intros Hi.
  rewrite testbit_u32, Z.lor_spec, !Z.land_spec, Z.lnot_spec by lia.
  destruct (Z.ltb_spec i 32); [|lia].
  destruct (Z.testbit mask i), (Z.testbit f i), (Z.testbit b i); reflexivity.
Qed.

Lemma testbit_cond_lor (c : bool) prev K i :
  Z.testbit (if c then Z.lor prev K else prev) i
  = Z.testbit prev i || (c && Z.testbit K i).
Proof.
  destruct c; [apply Z.lor_spec|]. cbn [andb]. symmetry. apply orb_false_r.
Qed.

Lemma cases_0_31 i :
  0 <= i < 32 ->
  i = 0 \/ i = 1 \/ i = 2 \/ i = 3 \/ i = 4 \/ i = 5 \/ i = 6 \/ i = 7
  \/ i = 8 \/ i = 9 \/ i = 10 \/ i = 11 \/ i = 12 \/ i = 13 \/ i = 14
  \/ i = 15 \/ i = 16 \/ i = 17 \/ i = 18 \/ i = 19 \/ i = 20 \/ i = 21
  \/ i = 22 \/ i = 23 \/ i = 24 \/ i = 25 \/ i = 26 \/ i = 27 \/ i = 28
  \/ i = 29 \/ i = 30 \/ i = 31.
Proof. lia. Qed.

(** In the slow case the mask has nibble [k] set exactly when bit [k]
    of FM is. *)
Lemma mtfsf_slow_mask_bit fm i :
  0 <= i < 32 ->
  Z.testbit (mtfsf_slow_mask fm) i = Z.testbit fm (i / 4).
Proof.
  intros Hi. unfold mtfsf_slow_mask. cbv zeta.
  change 0x80 with (2 ^ 7); change 0x40 with (2 ^ 6);
    change 0x20 with (2 ^ 5); change 0x10 with (2 ^ 4);
    change 0x08 with (2 ^ 3); change 0x04 with (2 ^ 2);
    change 0x02 with (2 ^ 1); change 0x01 with (2 ^ 0).
  rewrite !tst_pow2 by lia.
  rewrite !testbit_cond_lor, Z.bits_0.
  destruct (cases_0_31 i Hi)
    as [->|[->|[->|[->|[->|[->|[->|[->|[->|[->|[->|[->|[->|[->|[->|[->|
       [->|[->|[->|[->|[->|[->|[->|[->|[->|[->|[->|[->|[->|[->|[->| ->
       ]]]]]]]]]]]]]]]]]]]]]]]]]]]]]]];
    repeat match goal with
           | |- context [?a / 4] =>
               let v := eval vm_compute in (a / 4) in change (a / 4) with v
           end;
    repeat match goal with
           | |- context [Z.testbit (Zpos ?p) ?j] =>
               lazymatch j with
               | Z0 => idtac | Zpos _ => idtac
               end;
               let v := eval vm_compute in (Z.testbit (Zpos p) j) in
               change (Z.testbit (Zpos p) j) with v
           end;
    cbn [orb andb];
    rewrite ?andb_false_r, ?andb_true_r, ?orb_false_r;
    cbn [orb andb]; reflexivity.
Qed.

Lemma fm_field_range m : 0 <= fm_field m < 256.
Proof.
  unfold fm_field. change 0xFF with (Z.ones 8).
  rewrite Z.land_ones by lia. change (2 ^ 8) with 256.
  apply Z.mod_pos_bound. lia.
Qed.

(** The fast case is the slow case at FM = 0xFF. *)
Lemma mtfsf_fast_is_slow : mtfsf_slow_mask 0xFF = 0xFFFFFFFF.
Proof. reflexivity. Qed.

Lemma ppc_mtfsf_fpscr m :
  fpscr (ppc_mtfsf m)
  = u32 (Z.lor (Z.land (fpscr m)
                  (Z.lnot (Z.land (mtfsf_slow_mask (fm_field m))
                                  (Z.lnot (Z.lor FEX VX)))))
               (Z.land (fpr m (reg_b m))
                  (Z.land (mtfsf_slow_mask (fm_field m))
                          (Z.lnot (Z.lor FEX VX))))).
Proof.
  unfold ppc_mtfsf. rewrite fpscr_with_rc. cbn [fpscr set_fpscr].
  fold (fm_field m). fold (reg_b m).
  destruct (Z.eqb_spec (fm_field m) 0xFF) as [E|_]; [|reflexivity].
  rewrite E, mtfsf_fast_is_slow. reflexivity.
Qed.

(** X9.  mtfsf copies frB into the FPSCR nibble by nibble: bit [i] of
    the FPSCR (0 the least significant) is replaced by bit [i] of frB
    when bit [i / 4] of the FM field is set and [i] is neither FEX nor
    VX, and is kept otherwise; the fast case FM = 0xFF follows the same
    rule. *)
Theorem ppc_mtfsf_bitwise (m : Machine) (i : Z) :
  0 <= i < 32 ->
  Z.testbit (fpscr (ppc_mtfsf m)) i
  = if Z.testbit (fm_field m) (i / 4) && negb (is_FEX_or_VX i)
    then Z.testbit (fpr m (reg_b m)) i
    else Z.testbit (fpscr m) i.
Proof.
  intros Hi. rewrite ppc_mtfsf_fpscr, testbit_merge by exact Hi.
  rewrite Z.land_spec, Z.lnot_spec, mtfsf_slow_mask_bit, testbit_FEX_VX
    by lia.
  reflexivity.
Qed.

(** X10.  mtfsfi writes its 4-bit immediate (instruction bits 12 to 15)
    into the FPSCR field selected by crfD, except at FEX and VX, and
    keeps every bit outside that field. *)
Theorem ppc_mtfsfi_bitwise (m : Machine) (i : Z) :
  0 <= i < 32 ->
  Z.testbit (fpscr (ppc_mtfsfi m)) i
  = if (28 <=? i + crf_d m) && (i + crf_d m <? 32) && negb (is_FEX_or_VX i)
    then Z.testbit (ppc_cur_instruction m) (i + crf_d m - 16)
    else Z.testbit (fpscr m) i.
Proof.
  intros Hi. unfold ppc_mtfsfi. rewrite fpscr_with_rc.
  cbn [fpscr set_fpscr]. fold (crf_d m).
  assert (Hd : 0 <= crf_d m).
  { unfold crf_d. apply Z.land_nonneg. right. lia. }
  rewrite testbit_merge by exact Hi.
  rewrite Z.land_spec, Z.lnot_spec, testbit_nibble, testbit_FEX_VX by lia.
  destruct ((28 <=? i + crf_d m) && (i + crf_d m <? 32)) eqn:Hin;
    cbn [andb]; [|reflexivity].
  destruct (is_FEX_or_VX i); cbn [negb]; [reflexivity|].
  apply andb_prop in Hin. destruct Hin as [H1 H2].
  apply Z.leb_le in H1. apply Z.ltb_lt in H2.
  rewrite Z.shiftr_spec, Z.land_spec, testbit_u32, Z.shiftl_spec by lia.
  change 0xF0000000 with (Z.shiftr 0xF0000000 0).
  rewrite testbit_nibble, Z.add_0_r by lia.
  destruct (Z.ltb_spec (i + crf_d m) 32), (Z.leb_spec 28 (i + crf_d m));
    try lia.
  rewrite !andb_true_r. reflexivity.
Qed.

Lemma bit_index_range m : 0 <= bit_index m < 32.
Proof. unfold bit_index. apply land_31_range. Qed.

Lemma shiftr_msb b :
  0 <= b < 32 -> Z.shiftr 0x80000000 b = 2 ^ (31 - b).
Proof.
  intros Hb. change 0x80000000 with (2 ^ 31).
  rewrite Z.shiftr_div_pow2 by lia.
  rewrite <- Z.pow_sub_r by lia. reflexivity.
Qed.

(** X11.  mtfsb1 sets and mtfsb0 clears the FPSCR bit whose index,
    counted from the most significant bit, is the crbD field, and
    changes no other bit; for the indices 1 and 2 (FEX and VX) the
    FPSCR is left as it is. *)
Theorem mtfsb_bitwise (m : Machine) (i : Z) :
  0 <= i ->
  Z.testbit (fpscr (ppc_mtfsb1 m)) i
  = Z.testbit (fpscr m) i
    || ((i =? 31 - bit_index m) && negb (is_FEX_or_VX (31 - bit_index m)))
  /\ Z.testbit (fpscr (ppc_mtfsb0 m)) i
     = Z.testbit (fpscr m) i
       && negb ((i =? 31 - bit_index m)
                && negb (is_FEX_or_VX (31 - bit_index m))).
Proof.
  intros Hi. unfold ppc_mtfsb1, ppc_mtfsb0. rewrite !fpscr_with_rc.
  fold (bit_index m). pose proof (bit_index_range m) as Hb.
  unfold is_FEX_or_VX, or_fpscr, and_fpscr.
  destruct (Z.eqb_spec (bit_index m) 0) as [H0|H0],
    (Z.ltb_spec 2 (bit_index m)) as [H2|H2]; cbn [orb]; try lia;
    cbn [fpscr set_fpscr];
    rewrite ?Z.lor_spec, ?Z.land_spec, ?Z.lnot_spec, ?shiftr_msb,
      ?Z.pow2_bits_eqb by lia;
    rewrite ?(Z.eqb_sym (31 - bit_index m) i);
    destruct (Z.eqb_spec (31 - bit_index m) 29),
      (Z.eqb_spec (31 - bit_index m) 30); try lia;
    cbn [orb negb]; rewrite ?andb_true_r, ?andb_false_r, ?orb_false_r;
    cbn [negb]; rewrite ?andb_true_r; split; reflexivity.
Qed.

Lemma testbit_high_word f i :
  0 <= f < 2 ^ 32 -> 32 <= i -> Z.testbit f i = false.
Proof.
  intros Hf Hi. rewrite <- (Z.mod_small f (2 ^ 32)) by exact Hf.
  apply Z.mod_pow2_bits_high. lia.
Qed.

(** X12.  mffs puts the FPSCR in the low word of frD and 0xFFF80000 in
    the high word (0xFFFFFFFF for the 601 variant), and leaves the
    FPSCR and the other FPRs alone. *)
Theorem ppc_mffs_words (m : Machine) :
  0 <= fpscr m < 2 ^ 32 ->
  u32 (fpr (ppc_mffs m) (reg_d m)) = fpscr m
  /\ Z.shiftr (fpr (ppc_mffs m) (reg_d m)) 32 = 0xFFF80000
  /\ u32 (fpr (ppc_mffs_601 m) (reg_d m)) = fpscr m
  /\ Z.shiftr (fpr (ppc_mffs_601 m) (reg_d m)) 32 = 0xFFFFFFFF
  /\ fpscr (ppc_mffs m) = fpscr m
  /\ fpscr (ppc_mffs_601 m) = fpscr m
  /\ fpr (ppc_mffs m) = upd (fpr m) (reg_d m) (fpr (ppc_mffs m) (reg_d m)).
Proof.
  intros Hf. unfold ppc_mffs, ppc_mffs_601.
  rewrite !fpr_with_rc, !fpscr_with_rc. cbn [fpr fpscr set_fpr].
  unfold upd. rewrite Z.eqb_refl.
  assert (Hlow : forall C, Z.land C (Z.ones 32) = 0 ->
                   u32 (Z.lor (fpscr m) C) = fpscr m).
  { intros C HC. unfold u32. rewrite Z.land_lor_distr_l, HC, Z.lor_0_r.
    rewrite Z.land_ones by lia. apply Z.mod_small. exact Hf. }
  assert (Hhigh : forall C, Z.shiftr (Z.lor (fpscr m) C) 32 = Z.shiftr C 32).
  { intros C. rewrite Z.shiftr_lor.
    replace (Z.shiftr (fpscr m) 32) with 0; [reflexivity|].
    symmetry. rewrite Z.shiftr_div_pow2 by lia. apply Z.div_small. exact Hf. }
  rewrite !Hlow, !Hhigh by reflexivity.
  repeat split.
Qed.

(** X13.  mffs followed by mtfsf from the register it wrote is the
    identity on the FPSCR: whatever the FM field, the FPSCR after the
    pair is the FPSCR before it. *)
Theorem mffs_mtfsf_round_trip (m : Machine) (i1 i2 : Z) :
  0 <= fpscr m < 2 ^ 32 ->
  reg_b (Examples.fetch i2 m) = reg_d (Examples.fetch i1 m) ->
  fpscr (ppc_mtfsf (Examples.fetch i2 (ppc_mffs (Examples.fetch i1 m))))
  = fpscr m.
Proof.
  intros Hf Hreg. rewrite ppc_mtfsf_fpscr.
  set (m1 := Examples.fetch i1 m).
  assert (Hfp : fpscr (Examples.fetch i2 (ppc_mffs m1)) = fpscr m).
  { cbn [Examples.fetch fpscr]. unfold ppc_mffs. rewrite fpscr_with_rc.
    reflexivity. }
  assert (Hsrc : fpr (Examples.fetch i2 (ppc_mffs m1))
                     (reg_b (Examples.fetch i2 (ppc_mffs m1)))
                 = Z.lor (fpscr m) 0xFFF8000000000000).
  { change (reg_b (Examples.fetch i2 (ppc_mffs m1)))
      with (reg_b (Examples.fetch i2 m)).
    rewrite Hreg. cbn [Examples.fetch fpr]. unfold ppc_mffs.
    rewrite fpr_with_rc. cbn [fpr set_fpr]. unfold upd.
    rewrite Z.eqb_refl. reflexivity. }
  rewrite Hfp, Hsrc.
  apply Z.bits_inj'. intros i Hi.
  destruct (Z.ltb_spec i 32) as [Hlt|Hge].
  - rewrite testbit_merge by lia.
    rewrite Z.lor_spec.
    change 0xFFF8000000000000 with (Z.shiftl 0xFFF80000 32).
    rewrite Z.shiftl_spec_low by lia. rewrite orb_false_r.
    destruct (Z.testbit _ i); reflexivity.
  - rewrite testbit_u32 by lia.
    destruct (Z.ltb_spec i 32); [lia|].
    rewrite andb_false_r. symmetry. apply testbit_high_word; assumption.
Qed.

Lemma crf_range x : 0 <= Z.land x 0x1C <= 28.
Proof.
  assert (H32 : 0 <= Z.land x 0x1C < 32).
  { replace (Z.land x 0x1C) with (Z.land (Z.land x 0x1C) (Z.ones 5))
      by (rewrite <- Z.land_assoc; reflexivity).
    rewrite Z.land_ones by lia. apply Z.mod_pos_bound. reflexivity. }
  assert (H4 : (Z.land x 0x1C) mod 4 = 0).
  { change 4 with (2 ^ 2). rewrite <- Z.land_ones by lia.
    rewrite <- Z.land_assoc. change (Z.land 0x1C (Z.ones 2)) with 0.
    apply Z.land_0_r. }
  pose proof (Z.div_mod (Z.land x 0x1C) 4 ltac:(lia)) as Hdm.
  rewrite H4 in Hdm. lia.
Qed.

Lemma same_outside_clear W f : same_outside W (Z.land f (Z.lnot W)) f.
Proof.
  intros i Hi HW. rewrite Z.land_spec, Z.lnot_spec, HW by lia.
  apply andb_true_r.
Qed.

Lemma land_clear_self W f : Z.land (Z.land f (Z.lnot W)) W = 0.
Proof.
  rewrite <- Z.land_assoc, (Z.land_comm (Z.lnot W)), Z.land_lnot_diag.
  apply Z.land_0_r.
Qed.

(** X14.  mcrfs copies the FPSCR field named by crfS into the CR field
    named by crfD and then clears, in that FPSCR field only, the
    exception bits that software may clear; FEX, VX and every bit
    outside the field keep their value, and so do the other CR
    fields. *)
Theorem ppc_mcrfs_effect (m : Machine) :
  Z.land (Z.shiftr (cr (ppc_mcrfs m)) (28 - crf_d m)) 0xF
  = Z.land (Z.shiftr (fpscr m) (28 - crf_s m)) 0xF
  /\ same_outside (Z.shiftr 0xF0000000 (crf_d m)) (cr (ppc_mcrfs m)) (cr m)
  /\ same_outside (Z.land (Z.shiftr 0xF0000000 (crf_s m)) mcrfs_clearable)
                  (fpscr (ppc_mcrfs m)) (fpscr m)
  /\ Z.land (fpscr (ppc_mcrfs m))
            (Z.land (Z.shiftr 0xF0000000 (crf_s m)) mcrfs_clearable) = 0
  /\ Z.land (fpscr (ppc_mcrfs m)) (Z.lor FEX VX)
     = Z.land (fpscr m) (Z.lor FEX VX).
Proof.
  unfold ppc_mcrfs, and_fpscr. cbn [fpscr cr set_fpscr set_cr].
  fold (crf_d m). fold (crf_s m).
  pose proof (crf_range (Z.shiftr (ppc_cur_instruction m) 21)) as Hd.
  pose proof (crf_range (Z.shiftr (ppc_cur_instruction m) 16)) as Hs.
  fold (crf_d m) in Hd. fold (crf_s m) in Hs.
  split.
  { apply Z.bits_inj'. intros j Hj. change 0xF with (Z.ones 4).
    rewrite !Z.land_spec, !Z.shiftr_spec, Z.testbit_ones_nonneg by lia.
    destruct (Z.ltb_spec j 4) as [Hlt|Hge];
      [rewrite !andb_true_r|rewrite !andb_false_r; reflexivity].
    rewrite testbit_u32, Z.lor_spec, Z.land_spec, Z.lnot_spec,
      testbit_nibble, Z.shiftr_spec, Z.land_spec, testbit_u32,
      Z.shiftl_spec by lia.
    change 0xF0000000 with (Z.shiftr 0xF0000000 0).
    rewrite testbit_nibble, Z.add_0_r by lia.
    replace (j + (28 - crf_d m) + crf_d m) with (j + 28) by lia.
    replace (j + 28 - crf_s m) with (j + (28 - crf_s m)) by lia.
    destruct (Z.leb_spec 28 (j + 28)), (Z.ltb_spec (j + 28) 32),
      (Z.ltb_spec (j + (28 - crf_d m)) 32); try lia.
    cbn [andb negb]. rewrite !andb_true_r, andb_false_r. reflexivity. }
  split.
  { intros i Hi HW. rewrite testbit_nibble in HW by lia.
    rewrite testbit_u32, Z.lor_spec, Z.land_spec, Z.lnot_spec,
      testbit_nibble, HW, Z.shiftr_spec, Z.land_spec by lia.
    change 0xF0000000 with (Z.shiftr 0xF0000000 0).
    rewrite testbit_nibble, Z.add_0_r, HW by lia.
    destruct (Z.ltb_spec i 32); [|lia].
    cbn [negb]. rewrite !andb_true_r, andb_false_r, orb_false_r.
    reflexivity. }
  split; [apply same_outside_clear|].
  split; [apply land_clear_self|].
  apply clear_disjoint.
  rewrite <- Z.land_assoc. change (Z.land mcrfs_clearable (Z.lor FEX VX)) with 0.
  apply Z.land_0_r.
Qed.

End MovesMore.

Section MovesMoreExamples.

Import FPSCR Props Props2.

(** [mtfsf 0x01, f2] with f2 = 3: the last nibble is copied. *)
Lemma ppc_mtfsf_bitwise_witness :
  0 <= 1 < 32
  /\ Z.testbit (fpscr (ppc_mtfsf (Examples.fetch 0xFC02158E
                                    (set_fpr 2 3 Examples.reset)))) 1 = true.
Proof.
  split; [lia|].
  rewrite (ppc_mtfsf_bitwise _ 1) by lia. vm_compute. reflexivity.
Defined.

(** [mtfsfi 7, 0xF]: the last field receives the immediate. *)
Lemma ppc_mtfsfi_bitwise_witness :
  0 <= 0 < 32
  /\ Z.testbit (fpscr (ppc_mtfsfi (Examples.fetch 0xFF80F10C
                                     Examples.reset))) 0 = true.
Proof.
  split; [lia|].
  rewrite (ppc_mtfsfi_bitwise _ 0) by lia. vm_compute. reflexivity.
Defined.

(** [mtfsb1 31] sets the least significant bit. *)
Lemma mtfsb_bitwise_witness :
  0 <= 0
  /\ Z.testbit (fpscr (ppc_mtfsb1 (Examples.fetch 0xFFE0004C
                                     Examples.reset))) 0 = true.
Proof.
  split; [lia|].
  rewrite (proj1 (mtfsb_bitwise _ 0 ltac:(lia))). vm_compute. reflexivity.
Defined.

(** [mffs f1] with RN = 11. *)
Lemma ppc_mffs_words_witness :
  0 <= fpscr (set_fpscr 3 (Examples.fetch 0xFC20048E Examples.reset)) < 2 ^ 32
  /\ fpr (ppc_mffs (set_fpscr 3 (Examples.fetch 0xFC20048E Examples.reset))) 1
     = 0xFFF8000000000003.
Proof.
  split; [cbn; lia|].
  destruct (ppc_mffs_words (set_fpscr 3 (Examples.fetch 0xFC20048E Examples.reset))
              ltac:(cbn; lia)) as (_ & _ & _ & _ & _ & _ & H).
  rewrite H. vm_compute. reflexivity.
Defined.

(** [mffs f1] then [mtfsf 0xFF, f1]. *)
Lemma mffs_mtfsf_round_trip_witness :
  0 <= fpscr (set_fpscr 0x000000F3 Examples.reset) < 2 ^ 32
  /\ reg_b (Examples.fetch 0xFDFE0D8E (set_fpscr 0x000000F3 Examples.reset))
     = reg_d (Examples.fetch 0xFC20048E (set_fpscr 0x000000F3 Examples.reset))
  /\ fpscr (ppc_mtfsf (Examples.fetch 0xFDFE0D8E
             (ppc_mffs (Examples.fetch 0xFC20048E
                (set_fpscr 0x000000F3 Examples.reset)))))
     = 0x000000F3.
Proof.
  split; [cbn; lia|]. split; [reflexivity|].
  apply (mffs_mtfsf_round_trip (set_fpscr 0x000000F3 Examples.reset));
    [cbn; lia | reflexivity].
Defined.

End MovesMoreExamples.


(** ** Loads and stores *)

Section LoadStoreMore.

Context {host : HostFPU}.

Import Props2.

Lemma ea_d_form_or_0_address m :
  ppc_effective_address (ea_d_form_or_0 m) = d_form_address m.
Proof.
  unfold ea_d_form_or_0, ea_d_form, d_form_address.
  cbn [ppc_effective_address set_ea]. destruct (reg_a m =? 0); reflexivity.
Qed.

Lemma ea_x_form_or_0_address m :
  ppc_effective_address (ea_x_form_or_0 m) = x_form_address m.
Proof.
  unfold ea_x_form_or_0, x_form_address.
  cbn [ppc_effective_address set_ea]. destruct (reg_a m =? 0); reflexivity.
Qed.

(** X15.  A D-form load or store without update (lfs, lfd, stfs, stfd)
    makes exactly one MMU access, at [(rA|0) + d] where a zero rA
    field stands for the value 0 and not for GPR 0; it writes no GPR,
    no FPR other than frD, and neither the FPSCR nor the CR. *)
Theorem d_form_single_access h (m : Machine) (env : call -> Z) :
  In h d_form_handlers ->
  map access_address (fst (run env (h m))) = [Some (d_form_address m)]
  /\ gpr (snd (run env (h m))) = gpr m
  /\ fpscr (snd (run env (h m))) = fpscr m
  /\ cr (snd (run env (h m))) = cr m
  /\ (forall r, fpr (snd (run env (h m))) r
                = if r =? reg_d m then fpr (snd (run env (h m))) r
                  else fpr m r).
Proof.
  intros Hin. pose proof (ea_d_form_or_0_address m) as Hea.
  unfold d_form_handlers in Hin. simpl in Hin.
  destruct Hin as [<-|[<-|[<-|[<-|[]]]]];
    cbv beta delta [ppc_lfs ppc_lfd ppc_stfs ppc_stfd]; cbv zeta;
    cbn [run fst snd map access_address]; rewrite Hea;
    (split; [reflexivity|]);
    do 3 (split; [reflexivity|]);
    intros r; destruct (Z.eqb_spec r (reg_d m)) as [->|Hne];
    try reflexivity;
    cbn [fpr set_fpr]; unfold upd;
    change (reg_d (ea_d_form_or_0 m)) with (reg_d m);
    (destruct (Z.eqb_spec r (reg_d m)); [contradiction|reflexivity]).
Qed.

(** X16.  An X-form load or store without update (lfsx, lfdx, stfsx,
    stfdx, stfiwx) makes exactly one MMU access, at [(rA|0) + rB]; it
    writes no GPR, no FPR other than frD, and neither the FPSCR nor
    the CR. *)
Theorem x_form_single_access h (m : Machine) (env : call -> Z) :
  In h x_form_handlers ->
  map access_address (fst (run env (h m))) = [Some (x_form_address m)]
  /\ gpr (snd (run env (h m))) = gpr m
  /\ fpscr (snd (run env (h m))) = fpscr m
  /\ cr (snd (run env (h m))) = cr m
  /\ (forall r, fpr (snd (run env (h m))) r
                = if r =? reg_d m then fpr (snd (run env (h m))) r
                  else fpr m r).
Proof.
  intros Hin. pose proof (ea_x_form_or_0_address m) as Hea.
  unfold x_form_handlers in Hin. simpl in Hin.
  destruct Hin as [<-|[<-|[<-|[<-|[<-|[]]]]]];
    cbv beta delta [ppc_lfsx ppc_lfdx ppc_stfsx ppc_stfdx ppc_stfiwx];
    cbv zeta;
    cbn [run fst snd map access_address]; rewrite Hea;
    (split; [reflexivity|]);
    do 3 (split; [reflexivity|]);
    intros r; destruct (Z.eqb_spec r (reg_d m)) as [->|Hne];
    try reflexivity;
    cbn [fpr set_fpr]; unfold upd;
    change (reg_d (ea_x_form_or_0 m)) with (reg_d m);
    (destruct (Z.eqb_spec r (reg_d m)); [contradiction|reflexivity]).
Qed.

(** X17.  With rA different from 0, an update form does what the form
    without update does, the same MMU access with the same operands
    and the same FPR result, and then writes the effective address to
    GPR rA. *)
Theorem update_form_extends h hu (m : Machine) (env : call -> Z) :
  In (hu, h) update_pairs ->
  reg_a m <> 0 ->
  run env (hu m)
  = (fst (run env (h m)),
     set_gpr (reg_a m) (ppc_effective_address (snd (run env (h m))))
             (snd (run env (h m)))).
Proof.
  intros Hin Hra. apply Z.eqb_neq in Hra.
  unfold update_pairs in Hin. simpl in Hin.
  repeat (destruct Hin as [Hp|Hin];
          [ injection Hp as <- <-;
            cbv beta delta [ppc_lfsu ppc_lfsux ppc_lfdu ppc_lfdux
                            ppc_stfsu ppc_stfsux ppc_stfdu ppc_stfdux
                            ppc_lfs ppc_lfsx ppc_lfd ppc_lfdx
                            ppc_stfs ppc_stfsx ppc_stfd ppc_stfdx
                            ea_d_form_or_0 ea_x_form_or_0 ea_x_form];
            cbv zeta; rewrite Hra; reflexivity | ]).
  contradiction.
Qed.

End LoadStoreMore.

Section LoadStoreMoreExamples.

Import Props2 SoftFPU.

(** [lfd f1, 8(r0)]: GPR 0 holds 0x1000 and is not used. *)
Lemma d_form_single_access_witness :
  In ppc_lfd d_form_handlers
  /\ map access_address
         (fst (run (fun _ => 0)
                 (ppc_lfd (Examples.fetch 0xC8200008
                             (set_gpr 0 0x1000 Examples.reset)))))
     = [Some 8].
Proof.
  split; [simpl; auto|].
  rewrite (proj1 (d_form_single_access ppc_lfd _ (fun _ => 0)
                    ltac:(simpl; auto))).
  vm_compute. reflexivity.
Defined.

(** [stfiwx f1, r0, r4] with GPR 4 = 0x2000. *)
Lemma x_form_single_access_witness :
  In ppc_stfiwx x_form_handlers
  /\ map access_address
         (fst (run (fun _ => 0)
                 (ppc_stfiwx (Examples.fetch 0x7C2027AE
                                (set_gpr 4 0x2000 Examples.reset)))))
     = [Some 0x2000].
Proof.
  split; [simpl; auto 10|].
  rewrite (proj1 (x_form_single_access ppc_stfiwx
                    (Examples.fetch 0x7C2027AE (set_gpr 4 0x2000 Examples.reset))
                    (fun _ => 0) ltac:(simpl; auto 10))).
  vm_compute. reflexivity.
Defined.

(** [lfdu f1, 8(r3)] with GPR 3 = 0x1000. *)
Lemma update_form_extends_witness :
  In (ppc_lfdu, ppc_lfd) update_pairs
  /\ reg_a (Examples.fetch 0xCC230008 (set_gpr 3 0x1000 Examples.reset)) <> 0
  /\ gpr (snd (run (fun _ => 0)
                 (ppc_lfdu (Examples.fetch 0xCC230008
                              (set_gpr 3 0x1000 Examples.reset))))) 3
     = 0x1008.
Proof.
  split; [simpl; auto 10|]. split; [intro Hz; vm_compute in Hz; discriminate Hz|].
  rewrite (update_form_extends ppc_lfd ppc_lfdu
             (Examples.fetch 0xCC230008 (set_gpr 3 0x1000 Examples.reset))
             (fun _ => 0)
             ltac:(simpl; auto 10) ltac:(intro Hz; vm_compute in Hz; discriminate Hz)).
  vm_compute. reflexivity.
Defined.

End LoadStoreMoreExamples.


(** ** Conversion to integer: the trap and the valid branch *)

Section ConvertMore.

Context {host : HostFPU}.

Import FPSCR Props Props2.

(** The invalid branches with the exception enabled, as one
    equation. *)
Lemma round_to_int_invalid_enabled mode m :
  tst (fpscr m) VE = true ->
  isnan (fpr m (reg_b m))
  || (fgt (fpr m (reg_b m)) int32_max
      || flt (fpr m (reg_b m)) int32_min) = true ->
  round_to_int mode m
  = Call ppc_floating_point_exception
         (fun _ => Ret (with_rc
            (set_fpscr (Z.lor (invalid_fpscr (fpr m (reg_b m)) (fpscr m)) FEX)
                       m))).
Proof.
  destruct m as [fp gp fs c instr rc ea hr].
  cbv beta iota zeta delta
      [round_to_int saturated and_fpscr or_fpscr reg_b reg_d
       fpr gpr fpscr cr ppc_cur_instruction rc_flag ppc_effective_address
       host_round set_fpr set_fpscr invalid_fpscr issnan].
  set (b := fp (Z.land (Z.shiftr instr 11) 31)).
  fold (invalid_cvi fs).
  intros HVE Hbad.
  assert (HVE' : tst (invalid_cvi fs) VE = true).
  { rewrite <- HVE. apply tst_eq, invalid_cvi_frame; reflexivity. }
  assert (HVE'' : tst (Z.lor (invalid_cvi fs) VXSNAN) VE = true).
  { rewrite <- HVE'. apply tst_eq, set_disjoint. reflexivity. }
  destruct (isnan b) eqn:Hnan.
  - destruct (negb (tst b 0x0008000000000000)); cbn [andb];
      rewrite ?HVE'', ?HVE'; reflexivity.
  - cbn [orb] in Hbad. rewrite Hbad, HVE'. cbn [andb]. reflexivity.
Qed.

(** X18.  With the invalid-operation exception enabled, a NaN operand
    or one beyond the [int32_t] range makes [round_to_int] call
    [ppc_floating_point_exception], once and as its only call; frD and
    every other FPR keep their value, and the FPSCR has VX, VXCVI and
    FEX set. *)
Theorem round_to_int_traps mode (m : Machine) (env : call -> Z) :
  tst (fpscr m) VE = true ->
  isnan (fpr m (reg_b m))
  || (fgt (fpr m (reg_b m)) int32_max
      || flt (fpr m (reg_b m)) int32_min) = true ->
  fst (run env (round_to_int mode m)) = [ppc_floating_point_exception]
  /\ fpr (snd (run env (round_to_int mode m))) = fpr m
  /\ gpr (snd (run env (round_to_int mode m))) = gpr m
  /\ tst (fpscr (snd (run env (round_to_int mode m)))) VX = true
  /\ tst (fpscr (snd (run env (round_to_int mode m)))) VXCVI = true
  /\ tst (fpscr (snd (run env (round_to_int mode m)))) FEX = true.
Proof.
  intros HVE Hbad. rewrite (round_to_int_invalid_enabled mode m HVE Hbad).
  cbn [run fst snd]. rewrite fpr_with_rc, gpr_with_rc, fpscr_with_rc.
  cbn [fpr gpr fpscr set_fpscr].
  do 3 (split; [reflexivity|]).
  split; [apply tst_lor_l, invalid_fpscr_sets; reflexivity|].
  split; [apply tst_lor_l, invalid_fpscr_sets; reflexivity|].
  apply tst_lor_r. reflexivity.
Qed.

(** *** The range of the valid branch *)

Lemma dbl_finite_shape b s mant e :
  dbl b = S754_finite s mant e ->
  Z.pos mant < 2 ^ 53 /\ -1074 <= e <= 971
  /\ (2 ^ 52 <= Z.pos mant \/ e = -1074).
Proof.
  unfold dbl.
  assert (HE : 0 <= Z.land (Z.shiftr b 52) 0x7FF < 2048).
  { change 0x7FF with (Z.ones 11). rewrite Z.land_ones by lia.
    apply Z.mod_pos_bound. reflexivity. }
  assert (HF : 0 <= Z.land b 0xFFFFFFFFFFFFF < 4503599627370496).
  { change 0xFFFFFFFFFFFFF with (Z.ones 52). rewrite Z.land_ones by lia.
    apply Z.mod_pos_bound. reflexivity. }
  change (2 ^ 52) with 4503599627370496.
  change (2 ^ 53) with 9007199254740992.
  generalize dependent (Z.land (Z.shiftr b 52) 0x7FF).
  generalize dependent (Z.land b 0xFFFFFFFFFFFFF).
  generalize (Z.testbit b 63).
  clear b. intros sb F HF E HE.
  destruct (Z.eqb_spec E 0) as [E0|E0].
  - destruct F as [|p|p].
    + intros H; discriminate H.
    + intros H; injection H as <- <- <-. lia.
    + intros H; discriminate H.
  - destruct (Z.eqb_spec E 0x7FF) as [E1|E1].
    + destruct (F =? 0); intros H; discriminate H.
    + destruct (F + 0x10000000000000) as [|p|p] eqn:Hp; intros H;
        try discriminate H.
      injection H as <- <- <-. lia.
Qed.

Lemma pow2_ge k n : n <= k -> 0 <= n -> 2 ^ n <= 2 ^ k.
Proof. intros H1 H2. apply Z.pow_le_mono_r; lia. Qed.

(** Quotients of a mantissa by a power of two at least [D0], for a
    mantissa at most [D0 * q]. *)
Lemma quotient_bounds mant D D0 q :
  0 < D0 -> D0 <= D -> 0 <= q -> Z.pos mant <= D0 * q ->
  0 <= Z.pos mant / D <= q /\ - q <= Z.neg mant / D <= 0.
Proof.
  intros H0 HD Hq Hm.
  assert (Hn : Z.neg mant = - Z.pos mant) by reflexivity.
  repeat split.
  - apply Z.div_pos; lia.
  - apply Z.div_le_upper_bound; nia.
  - apply Z.div_le_lower_bound; nia.
  - apply Z.div_le_upper_bound; lia.
Qed.

Lemma compare_cont_Eq p q : Pos.compare_cont Eq p q = Pos.compare p q.
Proof. reflexivity. Qed.

Lemma dbl_int32_max :
  dbl int32_max = S754_finite false 9007199250546688 (-22).
Proof. vm_compute. reflexivity. Qed.

Lemma dbl_int32_min :
  dbl int32_min = S754_finite true 4503599627370496 (-21).
Proof. vm_compute. reflexivity. Qed.

(** An operand that passes the range test converts to an integer
    that fits an [int32_t], in each of the three directed modes. *)
Lemma convertible_range b :
  convertible b = true ->
  (-2147483648 <= floorZ (dbl b) <= 2147483647)
  /\ (-2147483648 <= ceilZ (dbl b) <= 2147483647)
  /\ (-2147483648 <= truncZ (dbl b) <= 2147483647).
Proof.
  unfold convertible, isnan, fgt, flt, SFltb.
  rewrite dbl_int32_max, dbl_int32_min.
  destruct (dbl b) as [s|s| |s mant e] eqn:Hb; intros Hc.
  - cbv beta iota delta [ceilZ truncZ floorZ SFopp]. lia.
  - destruct s; vm_compute in Hc; discriminate Hc.
  - discriminate Hc.
  - destruct (dbl_finite_shape b s mant e Hb) as (Hm & He & Hn).
    change (2 ^ 53) with 9007199254740992 in Hm.
    change (2 ^ 52) with 4503599627370496 in Hn.
    cbn [negb andb] in Hc. apply negb_true_iff, orb_false_iff in Hc.
    destruct Hc as [Hmax Hmin].
    unfold SFcompare in Hmax, Hmin.
    cbv beta iota delta [ceilZ truncZ floorZ SFopp].
    destruct s; cbn [negb].
    + (* negative: at least -2^31 *)
      clear Hmax.
      assert (He' : e <= -21).
      { destruct (Z.compare_spec e (-21)); [lia|lia|discriminate Hmin]. }
      assert (Hq : 0 <= Z.pos mant / 2 ^ (- e) <= 2147483648
                   /\ -2147483648 <= Z.neg mant / 2 ^ (- e) <= 0).
      { destruct (Z.compare_spec e (-21)) as [He2|He2|He2];
          [| |discriminate Hmin].
        - clear He'. subst e. rewrite compare_cont_Eq in Hmin.
          change (2 ^ (- -21)) with 2097152.
          destruct (Pos.compare_spec mant 4503599627370496) as [Hc|Hc|Hc];
            [| |discriminate Hmin].
          + subst mant. clear. vm_compute. repeat split; discriminate.
          + pose proof (Pos2Z.pos_lt_pos _ _ Hc) as Hz. clear Hc Hb Hmin.
            apply (quotient_bounds mant 2097152 2097152 2147483648); lia.
        - apply (quotient_bounds mant (2 ^ (- e)) 4194304 2147483648);
            [lia|exact (pow2_ge (- e) 22 ltac:(lia) ltac:(lia))|lia|lia]. }
      clear Hb. destruct (Z.leb_spec 0 e); [lia|]. lia.
    + (* positive: at most 2^31 - 1 *)
      clear Hmin.
      assert (He' : e <= -22).
      { destruct (Z.compare_spec (-22) e); [lia|discriminate Hmax|lia]. }
      assert (Hq : 0 <= Z.pos mant / 2 ^ (- e) <= 2147483647
                   /\ -2147483647 <= Z.neg mant / 2 ^ (- e) <= 0).
      { destruct (Z.compare_spec (-22) e) as [He2|He2|He2];
          [|discriminate Hmax|].
        - clear He'. subst e. rewrite compare_cont_Eq in Hmax.
          change (2 ^ (- -22)) with 4194304.
          destruct (Pos.compare_spec 9007199250546688 mant) as [Hc|Hc|Hc];
            [|discriminate Hmax|].
          + subst mant. clear. vm_compute. repeat split; discriminate.
          + pose proof (Pos2Z.pos_lt_pos _ _ Hc) as Hz. clear Hc Hb Hmax.
            apply (quotient_bounds mant 4194304 4194304 2147483647); lia.
        - apply (quotient_bounds mant (2 ^ (- e)) 8388608 2147483647);
            [lia|exact (pow2_ge (- e) 23 ltac:(lia) ltac:(lia))|lia|lia]. }
      clear Hb. destruct (Z.leb_spec 0 e); [lia|]. lia.
Qed.

Lemma signed32_u32 k :
  -2147483648 <= k <= 2147483647 -> signed32 (u32 k) = k.
Proof.
  intros Hk. unfold signed32, u32. rewrite Z.land_ones by lia.
  change (2 ^ 31) with 2147483648. change (2 ^ 32) with 4294967296.
  destruct (Z.leb_spec 0 k) as [Hp|Hn].
  - rewrite Z.mod_small by lia.
    destruct (Z.ltb_spec k 2147483648); lia.
  - rewrite <- (Z.mod_unique_pos k 4294967296 (-1) (k + 4294967296)) by lia.
    destruct (Z.ltb_spec (k + 4294967296) 2147483648); lia.
Qed.

(** The register image of a converted integer: the 32-bit word below
    the fixed high word. *)
Lemma int_image k :
  u32 (Z.lor (u32 k) 0xFFF8000000000000) = u32 k
  /\ Z.shiftr (Z.lor (u32 k) 0xFFF8000000000000) 32 = 0xFFF80000.
Proof.
  split.
  - unfold u32. rewrite Z.land_lor_distr_l.
    change (Z.land 0xFFF8000000000000 (Z.ones 32)) with 0.
    rewrite Z.lor_0_r, <- Z.land_assoc, Z.land_diag. reflexivity.
  - rewrite Z.shiftr_lor.
    change (Z.shiftr 0xFFF8000000000000 32) with 0xFFF80000.
    unfold u32. rewrite Z.land_ones by lia.
    rewrite Z.shiftr_div_pow2 by lia.
    rewrite Z.div_small by (apply Z.mod_pos_bound; reflexivity).
    reflexivity.
Qed.

Lemma round_to_int_valid mode m :
  convertible (fpr m (reg_b m)) = true ->
  Z.land mode 0x3 <> 0 ->
  round_to_int mode m
  = Ret (with_rc
           (set_fpr (reg_d m)
              (Z.lor (u32 (int_rounding mode (dbl (fpr m (reg_b m)))))
                     0xFFF8000000000000) m)).
Proof.
  unfold convertible, round_to_int, int_rounding. intros Hc Hmode.
  apply andb_true_iff in Hc. destruct Hc as [Hnan Hrange].
  apply negb_true_iff in Hnan. apply negb_true_iff in Hrange.
  rewrite Hnan, Hrange.
  unfold round_to_zero, round_to_pos_inf, round_to_neg_inf, of_int32.
  destruct (Z.land mode 3) as [|p|p]; [contradiction| |reflexivity].
  destruct p as [p|p|]; [reflexivity| |reflexivity].
  destruct p; reflexivity.
Qed.

(** X19.  In the three directed modes (toward zero, up, down) an
    operand that is a number within the [int32_t] range is converted
    without any call and without touching the FPSCR or another FPR:
    frD gets the high word 0xFFF80000 over a low word that, read as an
    [int32_t], is the operand truncated, rounded up or rounded down to
    an integer, and that integer fits an [int32_t]. *)
Theorem round_to_int_converts mode (m : Machine) (env : call -> Z) :
  convertible (fpr m (reg_b m)) = true ->
  Z.land mode 0x3 <> 0 ->
  fst (run env (round_to_int mode m)) = []
  /\ fpscr (snd (run env (round_to_int mode m))) = fpscr m
  /\ gpr (snd (run env (round_to_int mode m))) = gpr m
  /\ (forall r, r <> reg_d m ->
        fpr (snd (run env (round_to_int mode m))) r = fpr m r)
  /\ Z.shiftr (fpr (snd (run env (round_to_int mode m))) (reg_d m)) 32
     = 0xFFF80000
  /\ signed32 (u32 (fpr (snd (run env (round_to_int mode m))) (reg_d m)))
     = int_rounding mode (dbl (fpr m (reg_b m)))
  /\ -2147483648 <= int_rounding mode (dbl (fpr m (reg_b m))) <= 2147483647.
Proof.
  intros Hc Hmode. rewrite (round_to_int_valid mode m Hc Hmode).
  cbn [run fst snd]. rewrite fpr_with_rc, gpr_with_rc, fpscr_with_rc.
  cbn [fpr gpr fpscr set_fpr].
  assert (Hr : -2147483648 <= int_rounding mode (dbl (fpr m (reg_b m)))
               <= 2147483647).
  { destruct (convertible_range _ Hc) as (Hf & Hce & Ht).
    unfold int_rounding. destruct (Z.land mode 3) as [|p|p]; [assumption| |assumption].
    destruct p as [p|p|]; [assumption| |assumption].
    destruct p; assumption. }
  do 3 (split; [reflexivity|]).
  split.
  { intros r Hr'. unfold upd. destruct (Z.eqb_spec r (reg_d m)); [contradiction|reflexivity]. }
  unfold upd. rewrite Z.eqb_refl.
  destruct (int_image (int_rounding mode (dbl (fpr m (reg_b m))))) as [Hlo Hhi].
  split; [exact Hhi|]. split; [|exact Hr].
  rewrite Hlo. apply signed32_u32, Hr.
Qed.

(** X20.  [fctiwz] followed by [stfiwx] of its target register: for an
    operand within the [int32_t] range the only call of the pair is one
    32-bit [mmu_write_vmem], and the word written is the operand
    truncated toward zero, as a [uint32_t]. *)
Theorem fctiwz_stfiwx_writes_truncation (m : Machine) (instr : Z)
        (env : call -> Z) :
  convertible (fpr m (reg_b m)) = true ->
  reg_s (Examples.fetch instr (snd (run env (ppc_fctiwz m)))) = reg_d m ->
  exists ea,
    fst (run env (ppc_fctiwz m))
    ++ fst (run env (ppc_stfiwx
                       (Examples.fetch instr (snd (run env (ppc_fctiwz m))))))
    = [mmu_write_vmem W32 ea (u32 (truncZ (dbl (fpr m (reg_b m)))))].
Proof.
  intros Hc Hs. unfold ppc_fctiwz in *.
  assert (Hmode : Z.land 1 0x3 <> 0) by discriminate.
  rewrite (round_to_int_valid 1 m Hc Hmode) in *.
  cbn [run fst snd app] in *.
  unfold ppc_stfiwx. cbn [run fst snd].
  eexists. f_equal. f_equal.
  unfold ea_x_form_or_0.
  change (reg_s (set_ea ?e ?x)) with (reg_s x).
  rewrite Hs.
  change (fpr (set_ea ?e ?x)) with (fpr x).
  unfold Examples.fetch. cbn [fpr].
  rewrite fpr_with_rc. cbn [fpr set_fpr]. unfold upd. rewrite Z.eqb_refl.
  change (int_rounding 1 ?x) with (truncZ x).
  apply (proj1 (int_image _)).
Qed.

End ConvertMore.

Section ConvertMoreExamples.

Import FPSCR Props Props2 SoftFPU.

(** [fctiwz f1, f2] with f2 = 3.0e10 and VE set: the handler traps. *)
Lemma round_to_int_traps_witness :
  tst (fpscr (set_fpscr VE Examples.at_fctiwz)) VE = true
  /\ fst (run (fun _ => 0) (round_to_int 1 (set_fpscr VE Examples.at_fctiwz)))
     = [ppc_floating_point_exception].
Proof.
  split; [reflexivity|].
  apply (round_to_int_traps 1 (set_fpscr VE Examples.at_fctiwz) (fun _ => 0)).
  - reflexivity.
  - vm_compute. reflexivity.
Defined.

(** [fctiwz f1, f2] with f2 = -2.5: the integer is -2. *)
Lemma round_to_int_converts_witness :
  convertible 0xC004000000000000 = true
  /\ signed32 (u32 (fpr (snd (run (fun _ => 0)
                 (round_to_int 1 (set_fpr 2 0xC004000000000000
                                    Examples.at_fctiwz)))) 1))
     = -2.
Proof.
  split; [vm_compute; reflexivity|].
  pose proof (round_to_int_converts 1
                (set_fpr 2 0xC004000000000000 Examples.at_fctiwz)
                (fun _ => 0)
                ltac:(vm_compute; reflexivity)
                ltac:(intro Hz; vm_compute in Hz; discriminate Hz)) as H.
  destruct H as (_ & _ & _ & _ & _ & H & _).
  etransitivity; [exact H|]. vm_compute. reflexivity.
Defined.

(** [fctiwz f1, f2] with f2 = -2.5, then [stfiwx f1, r0, r4]. *)
Lemma fctiwz_stfiwx_writes_truncation_witness :
  convertible 0xC004000000000000 = true
  /\ exists ea,
       fst (run (fun _ => 0)
              (ppc_fctiwz (set_fpr 2 0xC004000000000000 Examples.at_fctiwz)))
       ++ fst (run (fun _ => 0)
                 (ppc_stfiwx
                    (Examples.fetch 0x7C2027AE
                       (snd (run (fun _ => 0)
                               (ppc_fctiwz (set_fpr 2 0xC004000000000000
                                              Examples.at_fctiwz)))))))
       = [mmu_write_vmem W32 ea 0xFFFFFFFE].
Proof.
  split; [vm_compute; reflexivity|].
  exact (fctiwz_stfiwx_writes_truncation
           (set_fpr 2 0xC004000000000000 Examples.at_fctiwz) 0x7C2027AE
           (fun _ => 0)
           ltac:(vm_compute; reflexivity) ltac:(vm_compute; reflexivity)).
Defined.

End ConvertMoreExamples.

(** ** Comparisons, sign moves and SCSI transfers *)

Section CompareMore.

Context {host : HostFPU}.

Import FPSCR Props Props2.

(** Exchanging the operands of the IEEE comparison reverses the
    order. *)
Lemma SFcompare_antisym x y :
  SFcompare y x = option_map CompOpp (SFcompare x y).
Proof.
  destruct x as [s1|s1| |s1 m1 e1], y as [s2|s2| |s2 m2 e2];
    try reflexivity;
    try (destruct s1; reflexivity);
    try (destruct s2; reflexivity);
    try (destruct s1, s2; reflexivity).
  destruct s1, s2; try reflexivity; cbn [SFcompare option_map];
    rewrite (Z.compare_antisym e1 e2);
    pose proof (Pos.compare_cont_antisym m1 m2 Eq) as HP;
    cbn [CompOpp] in HP;
    destruct (e1 ?= e2); cbn [CompOpp]; try reflexivity;
    rewrite <- HP; destruct (Pos.compare_cont Eq m1 m2); reflexivity.
Qed.

Lemma SFcompare_nan a b :
  isnan a || isnan b = true <-> SFcompare (dbl a) (dbl b) = None.
Proof.
  unfold isnan.
  destruct (dbl a) as [s1|s1| |s1 m1 e1], (dbl b) as [s2|s2| |s2 m2 e2];
    cbn; split; intros H; try reflexivity; try discriminate H.
Qed.

Lemma compare_result_cases a b :
  compare_result a b = CR.CR_SO \/ compare_result a b = CR.CR_LT
  \/ compare_result a b = CR.CR_GT \/ compare_result a b = CR.CR_EQ.
Proof.
  unfold compare_result.
  destruct (isnan a || isnan b); [auto|].
  destruct (flt a b); [auto|]. destruct (fgt a b); auto.
Qed.

(** X21.  The three tests of the compare handlers (NaN, less,
    greater, else equal) compute the IEEE comparison of the two
    doubles: unordered exactly for a NaN operand, and EQ only for
    operands that compare equal.  Exchanging the operands exchanges LT
    and GT and keeps EQ and SO. *)
Theorem compare_result_is_ieee (a b : Z) :
  compare_result a b = ieee_outcome (dbl a) (dbl b)
  /\ compare_result b a = swap_outcome (compare_result a b)
  /\ (compare_result a b = CR.CR_SO <-> isnan a || isnan b = true)
  /\ (compare_result a b = CR.CR_EQ <-> feq a b = true).
Proof.
  assert (Hieee : forall a b,
             compare_result a b = ieee_outcome (dbl a) (dbl b)).
  { clear a b. intros a b. unfold compare_result, ieee_outcome.
    destruct (isnan a || isnan b) eqn:Hnan.
    - apply SFcompare_nan in Hnan. rewrite Hnan. reflexivity.
    - unfold flt, fgt, SFltb. rewrite (SFcompare_antisym (dbl a) (dbl b)).
      destruct (SFcompare (dbl a) (dbl b)) as [[ | | ]|] eqn:Hc;
        try reflexivity.
      apply SFcompare_nan in Hc. congruence. }
  split; [apply Hieee|].
  split.
  { rewrite (Hieee b a), (Hieee a b). unfold ieee_outcome.
    rewrite (SFcompare_antisym (dbl a) (dbl b)).
    destruct (SFcompare (dbl a) (dbl b)) as [[ | | ]|]; reflexivity. }
  split.
  - rewrite (Hieee a b), SFcompare_nan. unfold ieee_outcome.
    destruct (SFcompare (dbl a) (dbl b)) as [[ | | ]|];
      split; intros H; try reflexivity; discriminate H.
  - rewrite (Hieee a b). unfold ieee_outcome, feq, SFeqb.
    destruct (SFcompare (dbl a) (dbl b)) as [[ | | ]|];
      split; intros H; try reflexivity; discriminate H.
Qed.

(** X22.  What a compare writes, for every pair of operands: the FPCC
    and the CR field named by the instruction both receive the four
    bits of the outcome, every other FPSCR bit and CR field keeps its
    value, and no register is written.  [ppc_fcmpo] does exactly what
    [ppc_fcmpu] does. *)
Theorem fcmp_records_outcome (m : Machine) :
  Z.land (fpscr (ppc_fcmpu m)) FPCC_MASK
  = Z.shiftr (compare_result (fpr m (reg_a m)) (fpr m (reg_b m))) 16
  /\ Z.land (fpscr (ppc_fcmpu m)) (Z.lnot FPCC_MASK)
     = Z.land (fpscr m) (Z.lnot FPCC_MASK)
  /\ Z.land (cr (ppc_fcmpu m)) (Z.shiftr 0xF0000000 (crf_d m))
     = Z.shiftr (compare_result (fpr m (reg_a m)) (fpr m (reg_b m)))
                (crf_d m)
  /\ Z.land (cr (ppc_fcmpu m)) (Z.lnot (Z.shiftr 0xF0000000 (crf_d m)))
     = Z.land (cr m) (Z.lnot (Z.shiftr 0xF0000000 (crf_d m)))
  /\ fpr (ppc_fcmpu m) = fpr m
  /\ gpr (ppc_fcmpu m) = gpr m
  /\ host_round (ppc_fcmpu m) = host_round m
  /\ ppc_fcmpo m = ppc_fcmpu m.
Proof.
  unfold ppc_fcmpu.
  cbn [fpscr cr fpr gpr host_round set_fpscr set_cr crf_d
       ppc_cur_instruction].
  set (c := compare_result (fpr m (reg_a m)) (fpr m (reg_b m))).
  assert (Hc : Z.land c 0xF0000000 = c
               /\ Z.land (Z.shiftr c 16) FPCC_MASK = Z.shiftr c 16).
  { destruct (compare_result_cases (fpr m (reg_a m)) (fpr m (reg_b m)))
      as [H|[H|[H|H]]]; fold c in H; rewrite H; split; reflexivity. }
  destruct Hc as [Hc1 Hc2].
  assert (Hfield : Z.land (Z.shiftr c (crf_d m))
                          (Z.shiftr 0xF0000000 (crf_d m))
                   = Z.shiftr c (crf_d m)).
  { rewrite <- Z.shiftr_land, Hc1. reflexivity. }
  split; [apply field_write; exact Hc2|].
  split; [apply field_write_others; exact Hc2|].
  split; [apply field_write; exact Hfield|].
  split; [apply field_write_others; exact Hfield|].
  repeat split; reflexivity.
Qed.

End CompareMore.

Section SignMoves.

Context {host : HostFPU}.

Import FPSCR Props Props2.

Lemma fneg_fields b :
  Z.testbit (fneg b) 63 = negb (Z.testbit b 63)
  /\ Z.land (Z.shiftr (fneg b) 52) 0x7FF = Z.land (Z.shiftr b 52) 0x7FF
  /\ Z.land (fneg b) 0xFFFFFFFFFFFFF = Z.land b 0xFFFFFFFFFFFFF.
Proof.
  unfold fneg, sign_bit.
  change 0x8000000000000000 with (2 ^ 63).
  split; [|split].
  - rewrite Z.lxor_spec, Z.pow2_bits_true by lia.
    destruct (Z.testbit b 63); reflexivity.
  - apply Z.bits_inj'. intros i Hi.
    rewrite !Z.land_spec, !Z.shiftr_spec, Z.lxor_spec by lia.
    change 0x7FF with (Z.ones 11).
    destruct (Z.ltb_spec i 11).
    + rewrite Z.pow2_bits_false by lia.
      destruct (Z.testbit b (i + 52)); reflexivity.
    + rewrite Z.ones_spec_high by lia. rewrite !andb_false_r. reflexivity.
  - apply Z.bits_inj'. intros i Hi.
    rewrite !Z.land_spec, Z.lxor_spec.
    change 0xFFFFFFFFFFFFF with (Z.ones 52).
    destruct (Z.ltb_spec i 52).
    + rewrite Z.pow2_bits_false by lia.
      destruct (Z.testbit b i); reflexivity.
    + rewrite Z.ones_spec_high by lia. rewrite !andb_false_r. reflexivity.
Qed.

(** Flipping the sign bit negates the value the pattern denotes. *)
Lemma dbl_fneg b : dbl (fneg b) = SFopp (dbl b).
Proof.
  destruct (fneg_fields b) as (Hs & He & Hf).
  unfold dbl. rewrite Hs, He, Hf.
  destruct (Z.land (Z.shiftr b 52) 0x7FF =? 0).
  - destruct (Z.land b 0xFFFFFFFFFFFFF); reflexivity.
  - destruct (Z.land (Z.shiftr b 52) 0x7FF =? 0x7FF).
    + destruct (Z.land b 0xFFFFFFFFFFFFF =? 0); reflexivity.
    + destruct (Z.land b 0xFFFFFFFFFFFFF + 0x10000000000000); reflexivity.
Qed.

(** X23.  [fneg] writes to frD the negation of frB as a double, a NaN
    staying a NaN, and touches neither the FPSCR (no exception bit, no
    FPRF) nor another register; negating twice with the same register
    as source and target restores the bit pattern. *)
Theorem ppc_fneg_negates (m : Machine) :
  dbl (fpr (ppc_fneg m) (reg_d m)) = SFopp (dbl (fpr m (reg_b m)))
  /\ isnan (fpr (ppc_fneg m) (reg_d m)) = isnan (fpr m (reg_b m))
  /\ fpscr (ppc_fneg m) = fpscr m
  /\ gpr (ppc_fneg m) = gpr m
  /\ (forall r, r <> reg_d m -> fpr (ppc_fneg m) r = fpr m r)
  /\ fneg (fneg (fpr m (reg_b m))) = fpr m (reg_b m).
Proof.
  unfold ppc_fneg. rewrite fpr_with_rc, fpscr_with_rc, gpr_with_rc.
  cbn [fpr fpscr gpr set_fpr]. unfold upd at 1 2. rewrite Z.eqb_refl.
  split; [apply dbl_fneg|].
  split.
  { unfold isnan. rewrite dbl_fneg.
    destruct (dbl (fpr m (reg_b m))); reflexivity. }
  do 2 (split; [reflexivity|]).
  split.
  { intros r Hr. unfold upd.
    destruct (Z.eqb_spec r (reg_d m)); [contradiction|reflexivity]. }
  unfold fneg. rewrite Z.lxor_assoc, Z.lxor_nilpotent, Z.lxor_0_r.
  reflexivity.
Qed.

End SignMoves.

Section ScsiMore.

Import Props2.

(** X24.  The request [read] and [write] make of the image, for a
    32-bit [lba] and a 16-bit [transfer_len]: the byte count is the
    sector count times 512 with 0 standing for 256 sectors, never
    wraps and is never 0; the byte offset wraps at 4 GiB, so the
    sector reached is [lba] modulo 2^23; on a stream that has not
    failed the position after the [seekg] is that offset. *)
Theorem scsi_transfer_request (lba transfer_len : Z)
        (d : ScsiHd.ScsiHardDisk) :
  0 <= lba < 2 ^ 32 ->
  0 <= transfer_len < 2 ^ 16 ->
  ScsiHd.fail (ScsiHd.hdd_img d) = false ->
  ScsiTransfer.transfer_size transfer_len
  = (if transfer_len =? 0 then 256 else transfer_len) * 512
  /\ 512 <= ScsiTransfer.transfer_size transfer_len <= 33553920
  /\ ScsiHd.device_offset lba = wrapped_sector lba * 512
  /\ ScsiHd.tellg (ScsiTransfer.position lba d) = wrapped_sector lba * 512.
Proof.
  intros Hlba Hlen Hok.
  change (2 ^ 32) with 4294967296 in Hlba.
  change (2 ^ 16) with 65536 in Hlen.
  assert (Hts : ScsiTransfer.transfer_size transfer_len
                = (if transfer_len =? 0 then 256 else transfer_len) * 512).
  { unfold ScsiTransfer.transfer_size, ScsiHd.sector_size, u32.
    rewrite Z.land_ones by lia. change (2 ^ 32) with 4294967296.
    apply Z.mod_small. destruct (Z.eqb_spec transfer_len 0); lia. }
  assert (Hoff : ScsiHd.device_offset lba = wrapped_sector lba * 512).
  { unfold ScsiHd.device_offset, ScsiHd.sector_size, u32, wrapped_sector.
    rewrite Z.land_ones by lia.
    change (2 ^ 32) with (8388608 * 512). change (2 ^ 23) with 8388608.
    rewrite Z.mul_mod_distr_r by lia. reflexivity. }
  split; [exact Hts|].
  split; [rewrite Hts; destruct (Z.eqb_spec transfer_len 0); lia|].
  split; [exact Hoff|].
  unfold ScsiTransfer.position. rewrite Hoff.
  assert (Hpos : 0 <= wrapped_sector lba * 512).
  { unfold wrapped_sector. change (2 ^ 23) with 8388608.
    pose proof (Z.mod_pos_bound lba 8388608 ltac:(lia)). lia. }
  unfold ScsiHd.fail in Hok. apply orb_false_iff in Hok.
  destruct Hok as [Hf Hb].
  unfold ScsiHd.tellg, ScsiHd.seekg, ScsiHd.fail.
  cbn [ScsiHd.failbit ScsiHd.badbit ScsiHd.pos ScsiHd.file_size].
  rewrite Hf, Hb. cbn [orb].
  destruct (Z.ltb_spec (wrapped_sector lba * 512) 0); [lia|].
  cbn [ScsiHd.failbit ScsiHd.badbit ScsiHd.pos]. rewrite ?Hf, ?Hb.
  reflexivity.
Qed.

End ScsiMore.

Section MoreExamples.

Import Props2 SoftFPU.

(** Sector 0x800001 of [Examples.disk], two sectors: the offset wraps
    to sector 1. *)
Lemma scsi_transfer_request_witness :
  ScsiHd.fail (ScsiHd.hdd_img Examples.disk) = false
  /\ ScsiHd.tellg (ScsiTransfer.position 0x800001 Examples.disk) = 512
  /\ ScsiTransfer.transfer_size 2 = 1024.
Proof.
  destruct (scsi_transfer_request 0x800001 2 Examples.disk
              ltac:(vm_compute; split; [discriminate|reflexivity])
              ltac:(vm_compute; split; [discriminate|reflexivity])
              ltac:(reflexivity)) as (H1 & _ & _ & H4).
  split; [reflexivity|]. split.
  - etransitivity; [exact H4|]. vm_compute. reflexivity.
  - etransitivity; [exact H1|]. reflexivity.
Defined.

End MoreExamples.
